(** * A shallow embedding of the trading-robot backtesting core

    Source: [backtest.py] (class [ForexBacktester]) and [monte_carlo.py]
    (class [MonteCarloSimulator]).

    Numbers.  The Python code computes with binary64 floats.  Finite values
    are modelled by exact rationals ([Q]); the non-finite results that the
    code can produce (a division by zero inside numpy/pandas gives an
    infinity or a NaN instead of raising) are modelled by the type [fnum].
    Rounding error is not modelled, and zero carries no sign.  Results that
    involve a square root are kept symbolically, as [surd]. *)

From Stdlib Require Import ZArith QArith Qround Qabs List String Bool Lia Lqa.
From Stdlib Require Import Permutation.
Import ListNotations.
Local Open Scope Q_scope.

(* ================================================================= *)
(** ** Idealised floating-point values *)

Module Num.

Definition Qltb (a b : Q) : bool := negb (Qle_bool b a).

(** A float64 value: a finite number, an infinity, or NaN. *)
Inductive fnum : Type :=
| Fin (q : Q)
| PInf
| NInf
| NaN.

Definition fneg (x : fnum) : fnum :=
  match x with
  | Fin q => Fin (- q)
  | PInf => NInf
  | NInf => PInf
  | NaN => NaN
  end.

Definition fadd (x y : fnum) : fnum :=
  match x, y with
  | NaN, _ | _, NaN => NaN
  | Fin a, Fin b => Fin (a + b)
  | PInf, NInf | NInf, PInf => NaN
  | PInf, _ | _, PInf => PInf
  | NInf, _ | _, NInf => NInf
  end.

Definition fsub (x y : fnum) : fnum := fadd x (fneg y).

(** The sign of [inf * a] for a finite [a]; [inf * 0] is NaN. *)
Definition inf_times (pos : bool) (a : Q) : fnum :=
  if Qltb 0 a then (if pos then PInf else NInf)
  else if Qltb a 0 then (if pos then NInf else PInf)
  else NaN.

Definition fmul (x y : fnum) : fnum :=
  match x, y with
  | NaN, _ | _, NaN => NaN
  | Fin a, Fin b => Fin (a * b)
  | Fin a, PInf | PInf, Fin a => inf_times true a
  | Fin a, NInf | NInf, Fin a => inf_times false a
  | PInf, PInf | NInf, NInf => PInf
  | PInf, NInf | NInf, PInf => NInf
  end.

(** Division as numpy performs it: [a / 0] is an infinity of the sign of
    [a], and [0 / 0] is NaN; nothing is raised. *)
Definition fdiv (x y : fnum) : fnum :=
  match x, y with
  | NaN, _ | _, NaN => NaN
  | Fin a, Fin b =>
      if Qeq_bool b 0 then
        (if Qltb 0 a then PInf else if Qltb a 0 then NInf else NaN)
      else Fin (a / b)
  | Fin _, PInf | Fin _, NInf => Fin 0
  | PInf, Fin b => if Qltb b 0 then NInf else PInf
  | NInf, Fin b => if Qltb b 0 then PInf else NInf
  | PInf, PInf | PInf, NInf | NInf, PInf | NInf, NInf => NaN
  end.

(** Comparisons; every comparison with NaN is false. *)
Definition fle (x y : fnum) : bool :=
  match x, y with
  | NaN, _ | _, NaN => false
  | Fin a, Fin b => Qle_bool a b
  | NInf, _ => true
  | _, PInf => true
  | _, _ => false
  end.

Definition flt (x y : fnum) : bool :=
  match x, y with
  | NaN, _ | _, NaN => false
  | Fin a, Fin b => Qltb a b
  | NInf, NInf => false
  | PInf, _ => false
  | NInf, _ => true
  | _, PInf => true
  | _, NInf => false
  end.

Definition fge (x y : fnum) : bool := fle y x.

Definition is_nan (x : fnum) : bool :=
  match x with NaN => true | _ => false end.

(** [coef * sqrt radicand], for results such as [np.std] and the Sharpe
    ratio that leave the rationals. *)
Record surd : Type := mkSurd { coef : Q; radicand : Q }.


(** Sum of a list, as [np.sum] / [Series.sum]: the empty sum is 0. *)
Definition Qsum (xs : list Q) : Q := fold_left Qplus xs 0.

(** Python's [max(a, b)] and [min(a, b)]: the first argument wins ties. *)
Definition py_max (a b : Q) : Q := if Qltb a b then b else a.
Definition py_min (a b : Q) : Q := if Qltb b a then b else a.

(** Round half to even, the rule of Python's [round]. *)
Definition round_half_even (q : Q) : Z :=
  let f := Qfloor q in
  match Qcompare (q - inject_Z f) (1 # 2) with
  | Lt => f
  | Gt => (f + 1)%Z
  | Eq => if Z.even f then f else (f + 1)%Z
  end.

(** [round(q, 2)]. *)
Definition round2 (q : Q) : Q := inject_Z (round_half_even (q * 100)) / 100.

End Num.

(* ================================================================= *)
(** ** Timestamps and calendar arithmetic *)

Module Time.

(** A pandas [Timestamp], split into its calendar date and the
    nanoseconds elapsed since midnight. *)
Record Timestamp : Type := mkTs { year : Z; month : Z; day : Z; nanos : Z }.

Definition is_leap (y : Z) : bool :=
  (((y mod 4 =? 0) && negb (y mod 100 =? 0)) || (y mod 400 =? 0))%Z.

Definition days_in_month (y m : Z) : Z :=
  match m with
  | 2 => if is_leap y then 29 else 28
  | 4 | 6 | 9 | 11 => 30
  | _ => 31
  end%Z.

Definition valid (t : Timestamp) : Prop :=
  (1 <= month t <= 12 /\ 1 <= day t <= days_in_month (year t) (month t)
   /\ 0 <= nanos t < 86400000000000)%Z.

Definition validb (t : Timestamp) : bool :=
  ((1 <=? month t) && (month t <=? 12) && (1 <=? day t)
   && (day t <=? days_in_month (year t) (month t))
   && (0 <=? nanos t) && (nanos t <? 86400000000000))%Z.

(** Chronological order. *)
Definition compare (a b : Timestamp) : comparison :=
  match (year a ?= year b)%Z with
  | Eq => match (month a ?= month b)%Z with
          | Eq => match (day a ?= day b)%Z with
                  | Eq => (nanos a ?= nanos b)%Z
                  | c => c
                  end
          | c => c
          end
  | c => c
  end.

Definition leb (a b : Timestamp) : bool :=
  match compare a b with Gt => false | _ => true end.

Definition ltb (a b : Timestamp) : bool :=
  match compare a b with Lt => true | _ => false end.

(** Months elapsed since year 0. *)
Definition month_index (t : Timestamp) : Z := (year t * 12 + (month t - 1))%Z.

(** [t + pd.DateOffset(months=n)]: the month moves by [n], the day is cut
    back to the last day of the target month, the time of day is kept. *)
Definition add_months (t : Timestamp) (n : Z) : Timestamp :=
  let idx := (month_index t + n)%Z in
  let y := (idx / 12)%Z in
  let m := (idx mod 12 + 1)%Z in
  mkTs y m (Z.min (day t) (days_in_month y m)) (nanos t).

(** Days since 1970-01-01 of a civil date. *)
Definition days_from_civil (y m d : Z) : Z :=
  (let y' := if m <=? 2 then y - 1 else y in
   let era := y' / 400 in
   let yoe := y' - era * 400 in
   let mp := (m + 9) mod 12 in
   let doy := (153 * mp + 2) / 5 + d - 1 in
   let doe := yoe * 365 + yoe / 4 - yoe / 100 + doy in
   era * 146097 + doe - 719468)%Z.

(** [a - b] as a [Timedelta], in nanoseconds. *)
Definition sub (a b : Timestamp) : Z :=
  ((days_from_civil (year a) (month a) (day a)
    - days_from_civil (year b) (month b) (day b)) * 86400000000000
   + (nanos a - nanos b))%Z.

(** The calendar day of a timestamp. *)
Definition date (t : Timestamp) : Z * Z * Z := (year t, month t, day t).

End Time.

(* ================================================================= *)
(** ** [backtest.py]: the trade simulator and the metrics calculator *)

Module Backtest.
Import Num.

(** The strategy parameters read by [ForexBacktester.__init__]. *)
Record Config : Type := mkConfig {
  risk_per_trade : Q;
  daily_loss_limit : Q;
  stop_loss_pips : Q;
  take_profit_pips : Q;
  initial_balance : Q
}.

(** The defaults of [__init__], used when the configuration file gives
    no value. *)
Definition default_config : Config :=
  mkConfig (1 # 2) 3 8 12 10.

(** One row of the signal DataFrame; [name] is the row's index. *)
Record Row : Type := mkRow {
  name : Time.Timestamp;
  Close : Q;
  Buy_Signal : Z;
  Sell_Signal : Z
}.

Inductive Direction : Type := BUY | SELL.
Inductive Status : Type := OPEN | CLOSED.

Record Position : Type := mkPosition {
  p_symbol : string;
  p_direction : Direction;
  p_entry_price : Q;
  p_entry_time : Time.Timestamp;
  p_lot_size : Q;
  stop_loss : Q;
  take_profit : Q;
  p_status : Status
}.

Record Trade : Type := mkTrade {
  symbol : string;
  direction : Direction;
  entry_price : Q;
  exit_price : Q;
  entry_time : Time.Timestamp;
  exit_time : Time.Timestamp;
  lot_size : Q;
  pnl : Q;
  duration : Z;
  status : Status
}.

(** [needle in hay] on strings. *)
Fixpoint contains (needle hay : string) : bool :=
  String.prefix needle hay ||
  match hay with
  | EmptyString => false
  | String _ rest => contains needle rest
  end.

(** [calculate_position_size].  The division raises [ZeroDivisionError]
    when the stop-loss distance is zero: [None].  (The first position of a
    run is sized from the configured balance, a Python float, so a run
    with a zero distance raises at its first open and never reaches the
    numpy balance that later sizings would divide.) *)
Definition calculate_position_size (cfg : Config)
    (balance price stop_loss_distance : Q) : option Q :=
  let risk_amount := balance * risk_per_trade cfg / 100 in
  if Qeq_bool (stop_loss_distance * 100000) 0 then None
  else
    let lot_size := risk_amount / (stop_loss_distance * 100000) in
    let lot_size := py_max lot_size (1 # 100) in
    let lot_size := py_min lot_size 1 in
    Some (round2 lot_size).

Definition pip_value (symbol : string) : Q :=
  if negb (contains "JPY" symbol) then 1 # 10000 else 1 # 100.

(** [open_position]. *)
Definition open_position (cfg : Config) (direction : Direction) (row : Row)
    (symbol : string) (balance : Q) : option Position :=
  let price := Close row in
  let stop_loss_distance := stop_loss_pips cfg * pip_value symbol in
  let take_profit_distance := take_profit_pips cfg * pip_value symbol in
  let '(sl, tp) :=
    match direction with
    | BUY => (price - stop_loss_distance, price + take_profit_distance)
    | SELL => (price + stop_loss_distance, price - take_profit_distance)
    end in
  match calculate_position_size cfg balance price stop_loss_distance with
  | None => None
  | Some lot =>
      Some (mkPosition symbol direction price (name row) lot sl tp OPEN)
  end.

(** [should_close_position]. *)
Definition should_close_position (position : Position) (row : Row) : bool :=
  let price := Close row in
  match p_direction position with
  | BUY => Qle_bool price (stop_loss position)
           || Qle_bool (take_profit position) price
  | SELL => Qle_bool (stop_loss position) price
            || Qle_bool price (take_profit position)
  end.

(** [close_position]. *)
Definition close_position (position : Position) (row : Row) (balance : Q)
    : Trade :=
  let exit_price := Close row in
  let exit_time := name row in
  let pnl :=
    match p_direction position with
    | BUY => (exit_price - p_entry_price position)
             * p_lot_size position * 100000
    | SELL => (p_entry_price position - exit_price)
              * p_lot_size position * 100000
    end in
  mkTrade (p_symbol position) (p_direction position)
          (p_entry_price position) exit_price
          (p_entry_time position) exit_time
          (p_lot_size position) pnl
          (Time.sub exit_time (p_entry_time position)) CLOSED.

(** The local variables of [simulate_trades]. *)
Record State : Type := mkState {
  trades : list Trade;
  balance : Q;
  position : option Position;
  consecutive_losses : nat;
  daily_pnl : Q
}.

Definition init (cfg : Config) : State :=
  mkState [] (initial_balance cfg) None 0 0.

(** The transitions a bar can take; recorded beside the state so that
    their order can be stated. *)
Inductive Event : Type :=
| Closed (t : Trade)
| Opened (p : Position).

(** The two [continue] guards at the head of the loop body. *)
Definition daily_gate (cfg : Config) (st : State) : bool :=
  Qle_bool (daily_pnl st) (- balance st * daily_loss_limit cfg / 100).

Definition losses_gate (st : State) : bool :=
  (3 <=? consecutive_losses st)%nat.

(** "Close existing position if conditions are met". *)
Definition close_phase (st : State) (row : Row) : State * list Event :=
  match position st with
  | Some p =>
      if should_close_position p row then
        let trade_result := close_position p row (balance st) in
        (mkState (trades st ++ [trade_result])
                 (balance st + pnl trade_result)
                 None
                 (if Qltb (pnl trade_result) 0
                  then S (consecutive_losses st) else O)
                 (daily_pnl st + pnl trade_result),
         [Closed trade_result])
      else (st, [])
  | None => (st, [])
  end.

Definition set_position (st : State) (p : Position) : State :=
  mkState (trades st) (balance st) (Some p)
          (consecutive_losses st) (daily_pnl st).

(** "Open new position if signal exists". *)
Definition open_phase (cfg : Config) (symbol : string) (st : State)
    (row : Row) : option (State * list Event) :=
  match position st with
  | None =>
      if (Buy_Signal row =? 1)%Z then
        match open_position cfg BUY row symbol (balance st) with
        | Some p => Some (set_position st p, [Opened p])
        | None => None
        end
      else if (Sell_Signal row =? 1)%Z then
        match open_position cfg SELL row symbol (balance st) with
        | Some p => Some (set_position st p, [Opened p])
        | None => None
        end
      else Some (st, [])
  | Some _ => Some (st, [])
  end.

(** One iteration of the loop of [simulate_trades]. *)
Definition step (cfg : Config) (symbol : string) (st : State) (row : Row)
    : option (State * list Event) :=
  if daily_gate cfg st then Some (st, [])
  else if losses_gate st then Some (st, [])
  else
    let '(st1, ev1) := close_phase st row in
    match open_phase cfg symbol st1 row with
    | Some (st2, ev2) => Some (st2, ev1 ++ ev2)
    | None => None
    end.

(** The loop, from an arbitrary state; the second component lists the
    events of each bar. *)
Fixpoint run (cfg : Config) (symbol : string) (st : State) (df : list Row)
    : option (State * list (list Event)) :=
  match df with
  | [] => Some (st, [])
  | row :: rest =>
      match step cfg symbol st row with
      | None => None
      | Some (st', ev) =>
          match run cfg symbol st' rest with
          | None => None
          | Some (st'', evs) => Some (st'', ev :: evs)
          end
      end
  end.

(** [simulate_trades]; [None] when the run raises. *)
Definition simulate_trades (cfg : Config) (df : list Row) (symbol : string)
    : option (list Trade) :=
  match run cfg symbol (init cfg) df with
  | Some (st, _) => Some (trades st)
  | None => None
  end.

(** *** The metrics calculator *)

Record Metrics : Type := mkMetrics {
  total_trades : nat;
  winning_trades : nat;
  losing_trades : nat;
  win_rate : Q;
  net_profit : Q;
  total_profit : Q;
  total_loss : Q;
  profit_factor : fnum;
  max_drawdown : Q;
  sharpe_ratio : surd;
  expectancy : Q;
  avg_win : Q;
  avg_loss : Q
}.

Definition Qnat (n : nat) : Q := inject_Z (Z.of_nat n).

(** [np.cumsum]. *)
Fixpoint cumsum_from (acc : Q) (xs : list Q) : list Q :=
  match xs with
  | [] => []
  | x :: rest => (acc + x) :: cumsum_from (acc + x) rest
  end.

Definition cumsum (xs : list Q) : list Q := cumsum_from 0 xs.

(** [np.maximum.accumulate]. *)
Fixpoint running_max_from (m : Q) (xs : list Q) : list Q :=
  match xs with
  | [] => []
  | x :: rest => py_max m x :: running_max_from (py_max m x) rest
  end.

Definition maximum_accumulate (xs : list Q) : list Q :=
  match xs with
  | [] => []
  | x :: rest => x :: running_max_from x rest
  end.

(** [np.max] of a nonempty array. *)
Definition np_max (xs : list Q) : Q :=
  match xs with
  | [] => 0
  | x :: rest => fold_left py_max rest x
  end.

Fixpoint zip_sub (xs ys : list Q) : list Q :=
  match xs, ys with
  | x :: xs', y :: ys' => (x - y) :: zip_sub xs' ys'
  | _, _ => []
  end.

(** The drawdown block, shared with [calculate_max_drawdown]. *)
Definition max_drawdown_of (returns : list Q) : Q :=
  let cumulative_returns := cumsum returns in
  let running_max := maximum_accumulate cumulative_returns in
  let drawdown := zip_sub running_max cumulative_returns in
  if (0 <? List.length drawdown)%nat then np_max drawdown else 0.

Definition np_mean (xs : list Q) : Q := Qsum xs / Qnat (List.length xs).

(** The square of [np.std] (population variance). *)
Definition np_var (xs : list Q) : Q :=
  let m := np_mean xs in
  np_mean (map (fun x => (x - m) * (x - m)) xs).

(** [np.std]. *)
Definition np_std (xs : list Q) : surd := mkSurd 1 (np_var xs).

Definition gross_profit (returns : list Q) : Q :=
  Qsum (filter (fun x => Qltb 0 x) returns).

Definition gross_loss (returns : list Q) : Q :=
  Qabs (Qsum (filter (fun x => Qltb x 0) returns)).

(** [calculate_performance_metrics]; [None] is the empty dict it returns
    for an empty trade list. *)
Definition calculate_performance_metrics (trades : list Trade)
    : option Metrics :=
  match trades with
  | [] => None
  | _ :: _ =>
      let returns := map pnl trades in
      let total_trades := List.length trades in
      let winning_trades := List.length (filter (fun x => Qltb 0 x) returns) in
      let losing_trades := List.length (filter (fun x => Qltb x 0) returns) in
      let total_profit := gross_profit returns in
      let total_loss := gross_loss returns in
      let net_profit := Qsum returns in
      let win_rate :=
        if (0 <? total_trades)%nat
        then Qnat winning_trades / Qnat total_trades * 100 else 0 in
      let profit_factor :=
        if Qltb 0 total_loss then Fin (total_profit / total_loss)
        else PInf in
      let sharpe_ratio :=
        if (1 <? List.length returns)%nat then
          if Qeq_bool (np_var returns) 0 then mkSurd 0 0
          else mkSurd (np_mean returns) (252 / np_var returns)
        else mkSurd 0 0 in
      let max_drawdown := max_drawdown_of returns in
      let avg_win :=
        if (0 <? winning_trades)%nat
        then total_profit / Qnat winning_trades else 0 in
      let avg_loss :=
        if (0 <? losing_trades)%nat
        then total_loss / Qnat losing_trades else 0 in
      let expectancy :=
        (win_rate / 100 * avg_win) - ((100 - win_rate) / 100 * avg_loss) in
      Some (mkMetrics total_trades winning_trades losing_trades win_rate
                      net_profit total_profit total_loss profit_factor
                      max_drawdown sharpe_ratio expectancy avg_win avg_loss)
  end.

(** The keys of the metrics dict. *)
Inductive Key : Type :=
| k_total_trades | k_winning_trades | k_losing_trades | k_win_rate
| k_net_profit | k_total_profit | k_total_loss | k_profit_factor
| k_max_drawdown | k_sharpe_ratio | k_expectancy | k_avg_win | k_avg_loss.

(** A value stored in the metrics dict. *)
Inductive Value : Type :=
| VCount (n : nat)
| VNum (q : Q)
| VFloat (x : fnum)
| VSurd (s : surd).

(** [metrics[key]] as a partial lookup: the empty dict has no key. *)
Definition lookup (m : option Metrics) (k : Key) : option Value :=
  match m with
  | None => None
  | Some r =>
      Some match k with
           | k_total_trades => VCount (total_trades r)
           | k_winning_trades => VCount (winning_trades r)
           | k_losing_trades => VCount (losing_trades r)
           | k_win_rate => VNum (win_rate r)
           | k_net_profit => VNum (net_profit r)
           | k_total_profit => VNum (total_profit r)
           | k_total_loss => VNum (total_loss r)
           | k_profit_factor => VFloat (profit_factor r)
           | k_max_drawdown => VNum (max_drawdown r)
           | k_sharpe_ratio => VSurd (sharpe_ratio r)
           | k_expectancy => VNum (expectancy r)
           | k_avg_win => VNum (avg_win r)
           | k_avg_loss => VNum (avg_loss r)
           end
  end.

(** [metrics.get(key, default)], the way every caller reads the dict. *)
Definition get (m : option Metrics) (k : Key) (default : Value) : Value :=
  match lookup m k with
  | Some v => v
  | None => default
  end.

(** *** The RSI column of [calculate_indicators] *)

(** [Series.diff()]: the first entry is NaN ([None]). *)
Fixpoint diff_from (prev : Q) (xs : list Q) : list (option Q) :=
  match xs with
  | [] => []
  | x :: rest => Some (x - prev) :: diff_from x rest
  end.

Definition diff (xs : list Q) : list (option Q) :=
  match xs with
  | [] => []
  | x :: rest => None :: diff_from x rest
  end.

(** [delta.where(delta > 0, 0)] and [-delta.where(delta < 0, 0)],
    entry by entry; a NaN entry fails the test and becomes 0. *)
Definition gain_of (d : option Q) : Q :=
  match d with
  | Some x => if Qltb 0 x then x else 0
  | None => 0
  end.

Definition loss_of (d : option Q) : Q :=
  - match d with
    | Some x => if Qltb x 0 then x else 0
    | None => 0
    end.

(** The [w] entries ending at index [i]. *)
Definition window {A : Type} (w i : nat) (xs : list A) : list A :=
  firstn w (skipn (i + 1 - w) xs).

(** [Series.rolling(window=w).mean()] at index [i]: NaN until [w] entries
    are available. *)
Definition rolling_mean_at (w : nat) (xs : list Q) (i : nat) : fnum :=
  if (i + 1 <? w)%nat then NaN
  else Fin (Qsum (window w i xs) / Qnat w).

Definition rolling_mean (w : nat) (xs : list Q) : list fnum :=
  map (rolling_mean_at w xs) (seq 0 (List.length xs)).

Definition rsi_of (gain loss : fnum) : fnum :=
  let rs := fdiv gain loss in
  fsub (Fin 100) (fdiv (Fin 100) (fadd (Fin 1) rs)).

Fixpoint zip_with {A B C : Type} (f : A -> B -> C) (xs : list A)
    (ys : list B) : list C :=
  match xs, ys with
  | x :: xs', y :: ys' => f x y :: zip_with f xs' ys'
  | _, _ => []
  end.

(** The column [df['RSI']] computed from the closes. *)
Definition RSI (closes : list Q) : list fnum :=
  let delta := diff closes in
  let gain := rolling_mean 14 (map gain_of delta) in
  let loss := rolling_mean 14 (map loss_of delta) in
  zip_with rsi_of gain loss.

End Backtest.

(* ================================================================= *)
(** ** [monte_carlo.py]: resampling and walk-forward analysis *)

Module MonteCarlo.
Import Num.

(** The parameters read by [MonteCarloSimulator.__init__]. *)
Record Config : Type := mkConfig {
  simulation_runs : nat;
  confidence_level : Q;
  initial_balance : Q
}.

Definition default_config : Config := mkConfig 1000 95 10.

(** The exceptions the modelled code can raise. *)
Inductive Exn : Type := KeyError | ValueError.

Inductive outcome (A : Type) : Type :=
| Returned (a : A)
| Raised (e : Exn).

Arguments Returned {A} a.
Arguments Raised {A} e.

(** The process-wide random generator: the stream of its raw draws,
    consumed from a position that every draw advances. *)
Definition Rng : Type := nat -> nat.

(** [np.random.choice(a, size=size, replace=True)] reading the stream
    from position [pos]: each draw picks an index below [len(a)]. *)
Fixpoint choice (rng : Rng) (pos : nat) (a : list Q) (size : nat) : list Q :=
  match size with
  | O => []
  | S k =>
      nth (Nat.modulo (rng pos) (List.length a)) a 0
      :: choice rng (S pos) a k
  end.

(** [calculate_max_drawdown]. *)
Definition calculate_max_drawdown (returns : list Q) : Q :=
  Backtest.max_drawdown_of returns.

(** One row of [simulation_results]. *)
Record SimulationRun : Type := mkRun {
  run : nat;
  final_balance : Q;
  total_return : fnum;
  win_rate : Q;
  max_drawdown : Q;
  net_profit : Q
}.

(** The body of the loop [for run in range(num_runs)]. *)
Definition simulate_run (cfg : Config) (rng : Rng) (pos : nat)
    (trade_returns : list Q) (run : nat) : SimulationRun :=
  let simulated_trades :=
    choice rng pos trade_returns (List.length trade_returns) in
  let final_balance := initial_balance cfg + Qsum simulated_trades in
  let total_return :=
    fmul (fsub (fdiv (Fin final_balance) (Fin (initial_balance cfg)))
               (Fin 1))
         (Fin 100) in
  let winning_trades :=
    List.length (filter (fun x => Qltb 0 x) simulated_trades) in
  let win_rate :=
    if (0 <? List.length simulated_trades)%nat
    then Backtest.Qnat winning_trades
         / Backtest.Qnat (List.length simulated_trades) * 100
    else 0 in
  let max_drawdown := calculate_max_drawdown simulated_trades in
  mkRun run final_balance total_return win_rate max_drawdown
        (Qsum simulated_trades).

(** The loop: [todo] runs remain, the next one has number [run], and the
    generator stands at [pos]. *)
Fixpoint simulation_loop (cfg : Config) (rng : Rng) (pos : nat)
    (trade_returns : list Q) (run todo : nat) : list SimulationRun :=
  match todo with
  | O => []
  | S k =>
      simulate_run cfg rng pos trade_returns run
      :: simulation_loop cfg rng (pos + List.length trade_returns)
           trade_returns (S run) k
  end.

(** Ascending sort of an array. *)
Fixpoint insert_sorted (x : Q) (xs : list Q) : list Q :=
  match xs with
  | [] => [x]
  | y :: rest => if Qle_bool x y then x :: xs else y :: insert_sorted x rest
  end.

Fixpoint sort (xs : list Q) : list Q :=
  match xs with
  | [] => []
  | x :: rest => insert_sorted x (sort rest)
  end.

(** [np.percentile(values, q)], linear interpolation between the two
    closest ranks; a percentile outside [0, 100] raises [ValueError], and
    an empty array gives NaN. *)
Definition percentile (values : list Q) (q : Q) : outcome fnum :=
  if Qltb q 0 || Qltb 100 q then Raised ValueError
  else
    match sort values with
    | [] => Returned NaN
    | (v0 :: _) as sorted =>
        let n := List.length sorted in
        let virtual_index := q / 100 * Backtest.Qnat (n - 1) in
        let previous := Z.to_nat (Qfloor virtual_index) in
        let next := Nat.min (S previous) (n - 1) in
        let gamma := virtual_index - Backtest.Qnat previous in
        let a := nth previous sorted v0 in
        let b := nth next sorted v0 in
        Returned (Fin (a + (b - a) * gamma))
    end.

Record Interval : Type := mkInterval {
  lower : fnum;
  upper : fnum;
  mean : Q;
  std : surd
}.

(** The body of the loop over the metrics of
    [calculate_confidence_intervals], for one column. *)
Definition interval_of (values : list Q) (alpha : Q) : outcome Interval :=
  let lower_percentile := (alpha / 2) * 100 in
  let upper_percentile := (1 - alpha / 2) * 100 in
  match percentile values lower_percentile with
  | Raised e => Raised e
  | Returned lo =>
      match percentile values upper_percentile with
      | Raised e => Raised e
      | Returned hi =>
          Returned (mkInterval lo hi (Backtest.np_mean values)
                               (Backtest.np_std values))
      end
  end.

(** The finite values of a float column, when all of them are finite. *)
Fixpoint finite_column (xs : list fnum) : option (list Q) :=
  match xs with
  | [] => Some []
  | Fin q :: rest =>
      match finite_column rest with
      | Some qs => Some (q :: qs)
      | None => None
      end
  | _ :: _ => None
  end.

(** The dict returned by [calculate_confidence_intervals].  The interval
    of the total return is given when every total return is finite, which
    is the case whenever the initial balance is not zero; how numpy
    propagates infinities and NaN through a percentile is not modelled. *)
Record ConfidenceIntervals : Type := mkCI {
  ci_final_balance : Interval;
  ci_total_return : option Interval;
  ci_win_rate : Interval;
  ci_max_drawdown : Interval
}.

(** [calculate_confidence_intervals]; an empty frame has no columns, and
    reading one raises [KeyError]. *)
Definition calculate_confidence_intervals (results_df : list SimulationRun)
    (alpha : Q) : outcome ConfidenceIntervals :=
  match results_df with
  | [] => Raised KeyError
  | _ :: _ =>
      match interval_of (map final_balance results_df) alpha with
      | Raised e => Raised e
      | Returned fb =>
          match interval_of (map win_rate results_df) alpha with
          | Raised e => Raised e
          | Returned wr =>
              match interval_of (map max_drawdown results_df) alpha with
              | Raised e => Raised e
              | Returned dd =>
                  let tr :=
                    match finite_column (map total_return results_df) with
                    | Some qs =>
                        match interval_of qs alpha with
                        | Returned i => Some i
                        | Raised _ => None
                        end
                    | None => None
                    end in
                  Returned (mkCI fb tr wr dd)
              end
          end
      end
  end.

Record Target : Type := mkTarget { target : Q; probability : fnum }.

(** [np.sum(cond) / len(results_df) * 100]. *)
Definition percent_of (count total : nat) : fnum :=
  fmul (fdiv (Fin (Backtest.Qnat count)) (Fin (Backtest.Qnat total)))
       (Fin 100).

Definition count_ge (results_df : list SimulationRun) (t : Q) : nat :=
  List.length (filter (fun r => fge (total_return r) (Fin t)) results_df).

Definition count_lt (results_df : list SimulationRun) (t : Q) : nat :=
  List.length (filter (fun r => flt (total_return r) (Fin t)) results_df).

Record TargetProbabilities : Type := mkTargets {
  day1_target : Target;
  day2_target : Target;
  day3_min_target : Target;
  breakeven : Target;
  loss : Target
}.

(** [calculate_target_probabilities]. *)
Definition calculate_target_probabilities (results_df : list SimulationRun)
    : TargetProbabilities :=
  let n := List.length results_df in
  mkTargets
    (mkTarget 900 (percent_of (count_ge results_df 900) n))
    (mkTarget 200 (percent_of (count_ge results_df 200) n))
    (mkTarget 2 (percent_of (count_ge results_df 2) n))
    (mkTarget 0 (percent_of (count_ge results_df 0) n))
    (mkTarget 0 (percent_of (count_lt results_df 0) n)).

(** The dict returned by [run_monte_carlo_simulation], without its
    ['statistics'] entry (column means, sample deviations and extrema),
    which no property below reads. *)
Record SimulationResults : Type := mkResults {
  simulation_data : list SimulationRun;
  confidence_intervals : ConfidenceIntervals;
  target_probabilities : TargetProbabilities
}.

(** [run_monte_carlo_simulation]; [Returned None] is the empty dict
    returned for an empty trade list. *)
Definition run_monte_carlo_simulation (cfg : Config) (rng : Rng)
    (trades : list Backtest.Trade) (num_runs : option nat)
    : outcome (option SimulationResults) :=
  match trades with
  | [] => Returned None
  | _ :: _ =>
      let num_runs :=
        match num_runs with
        | Some n => n
        | None => simulation_runs cfg
        end in
      let trade_returns := map Backtest.pnl trades in
      let results_df := simulation_loop cfg rng 0 trade_returns 0 num_runs in
      let alpha := (100 - confidence_level cfg) / 100 in
      match calculate_confidence_intervals results_df alpha with
      | Raised e => Raised e
      | Returned cis =>
          Returned (Some (mkResults results_df cis
                            (calculate_target_probabilities results_df)))
      end
  end.

(** *** Walk-forward analysis *)

Record PeriodMetrics : Type := mkPeriodMetrics {
  pm_total_trades : nat;
  pm_winning_trades : nat;
  pm_losing_trades : nat;
  pm_win_rate : Q;
  pm_net_profit : Q;
  pm_total_return : fnum;
  pm_profit_factor : fnum;
  pm_max_drawdown : Q
}.

(** [calculate_period_metrics]; [None] is the empty dict. *)
Definition calculate_period_metrics (cfg : Config)
    (period_trades : list Backtest.Trade) : option PeriodMetrics :=
  match period_trades with
  | [] => None
  | _ :: _ =>
      let returns := map Backtest.pnl period_trades in
      let total_trades := List.length period_trades in
      let winning_trades := List.length (filter (fun x => Qltb 0 x) returns) in
      let losing_trades := List.length (filter (fun x => Qltb x 0) returns) in
      let total_profit := Backtest.gross_profit returns in
      let total_loss := Backtest.gross_loss returns in
      let net_profit := Qsum returns in
      let win_rate :=
        if (0 <? total_trades)%nat
        then Backtest.Qnat winning_trades / Backtest.Qnat total_trades * 100
        else 0 in
      let profit_factor :=
        if Qltb 0 total_loss then Fin (total_profit / total_loss)
        else PInf in
      let total_return :=
        fmul (fdiv (Fin net_profit) (Fin (initial_balance cfg))) (Fin 100) in
      let max_drawdown := calculate_max_drawdown returns in
      Some (mkPeriodMetrics total_trades winning_trades losing_trades
                            win_rate net_profit total_return profit_factor
                            max_drawdown)
  end.

(** One entry of [walk_forward_results]. *)
Record PeriodResult : Type := mkPeriodResult {
  metrics : PeriodMetrics;
  period : nat;
  start_date : Time.Timestamp;
  end_date : Time.Timestamp;
  num_trades : nat
}.

(** [df_trades.sort_values('exit_time')].  pandas sorts with its default
    kind, a quicksort that is not stable: the frame comes back with the
    same rows in ascending order of exit time, and the order among rows
    with equal exit times is the library's business.  The functions that
    sort take the sorting function as their parameter [sort_values];
    [sorts] is all that is assumed of it. *)
Definition ascending (ts : list Backtest.Trade) : Prop :=
  ForallOrdPairs
    (fun a b => Time.leb (Backtest.exit_time a) (Backtest.exit_time b) = true)
    ts.

Definition sorts (sort_values : list Backtest.Trade -> list Backtest.Trade)
    : Prop :=
  forall ts, Permutation ts (sort_values ts) /\ ascending (sort_values ts).

(** One sorting function, for evaluation: insertion from the left, which
    happens to keep rows with equal exit times in their order. *)
Fixpoint insert_trade (t : Backtest.Trade) (ts : list Backtest.Trade)
    : list Backtest.Trade :=
  match ts with
  | [] => [t]
  | u :: rest =>
      if Time.ltb (Backtest.exit_time t) (Backtest.exit_time u)
      then t :: ts else u :: insert_trade t rest
  end.

Definition insertion_sort (ts : list Backtest.Trade)
    : list Backtest.Trade :=
  fold_left (fun acc t => insert_trade t acc) ts [].

(** [Series.min()] and [Series.max()] of the exit times. *)
Definition ts_min (t : Time.Timestamp) (ts : list Time.Timestamp)
    : Time.Timestamp :=
  fold_left (fun m x => if Time.ltb x m then x else m) ts t.

Definition ts_max (t : Time.Timestamp) (ts : list Time.Timestamp)
    : Time.Timestamp :=
  fold_left (fun m x => if Time.ltb m x then x else m) ts t.

(** The row filter of one period: exit time in
    [[period_start, period_end)]. *)
Definition in_period (period_start period_end : Time.Timestamp)
    (t : Backtest.Trade) : bool :=
  Time.leb period_start (Backtest.exit_time t)
  && Time.ltb (Backtest.exit_time t) period_end.

(** What one iteration of the [while] loop appends to
    [walk_forward_results]: nothing for a period without trades. *)
Definition period_entry (cfg : Config) (df_trades : list Backtest.Trade)
    (period_months : Z) (current_date : Time.Timestamp) (period_num : nat)
    : list PeriodResult :=
  let period_start := current_date in
  let period_end := Time.add_months current_date period_months in
  let period_trades := filter (in_period period_start period_end) df_trades in
  if (0 <? List.length period_trades)%nat then
    match calculate_period_metrics cfg period_trades with
    | Some period_metrics =>
        [mkPeriodResult period_metrics period_num period_start period_end
                        (List.length period_trades)]
    | None => []
    end
  else [].

(** The [while] loop.  Python gives no bound on its iterations (a step of
    zero months never ends), so the model takes fuel: [None] when the fuel
    runs out before the loop condition fails. *)
Fixpoint walk_forward_loop (fuel : nat) (cfg : Config)
    (df_trades : list Backtest.Trade) (end_date : Time.Timestamp)
    (period_months step_months : Z) (current_date : Time.Timestamp)
    (period_num : nat) : option (list PeriodResult) :=
  match fuel with
  | O => None
  | S fuel' =>
      if Time.leb (Time.add_months current_date period_months) end_date then
        match walk_forward_loop fuel' cfg df_trades end_date period_months
                step_months (Time.add_months current_date step_months)
                (S period_num) with
        | Some rest =>
            Some (period_entry cfg df_trades period_months current_date
                               period_num ++ rest)
        | None => None
        end
      else Some []
  end.

(** The dict returned by [run_walk_forward_analysis], with the count of
    its ['summary_statistics'] (absent when no period is reported); the
    averages over the periods are not modelled. *)
Record WalkForward : Type := mkWalkForward {
  period_results : list PeriodResult;
  total_periods : option nat
}.

(** [run_walk_forward_analysis]; [Some None] is the empty dict returned
    for an empty trade list. *)
Definition run_walk_forward_analysis
    (sort_values : list Backtest.Trade -> list Backtest.Trade)
    (fuel : nat) (cfg : Config)
    (trades : list Backtest.Trade) (period_months step_months : Z)
    : option (option WalkForward) :=
  match trades with
  | [] => Some None
  | t0 :: _ =>
      let df_trades := sort_values trades in
      let exits := map Backtest.exit_time df_trades in
      let start_date := ts_min (Backtest.exit_time t0) exits in
      let end_date := ts_max (Backtest.exit_time t0) exits in
      match walk_forward_loop fuel cfg df_trades end_date period_months
              step_months start_date 0 with
      | Some walk_forward_results =>
          Some (Some (mkWalkForward walk_forward_results
                        match walk_forward_results with
                        | [] => None
                        | _ :: _ => Some (List.length walk_forward_results)
                        end))
      | None => None
      end
  end.

End MonteCarlo.

(* ================================================================= *)
(** ** Specification vocabulary for the trade simulator *)

Module SimSpec.
Import Num Backtest.

(** Whether the position slot is occupied ([IN_POSITION]) or not
    ([FLAT]). *)
Definition held (st : State) : bool :=
  match position st with
  | Some _ => true
  | None => false
  end.

(** The events one bar may produce: nothing, a close, an open, or a close
    followed by an open. *)
Inductive bar_shape : list Event -> Prop :=
| shape_idle : bar_shape []
| shape_close : forall t, bar_shape [Closed t]
| shape_open : forall p, bar_shape [Opened p]
| shape_close_open : forall t p, bar_shape [Closed t; Opened p].

(** Replays a sequence of events from a slot that is occupied or not.
    An open on an occupied slot, or a close on an empty one, is refused
    ([None]); otherwise the final occupancy is returned. *)
Fixpoint track (occupied : bool) (evs : list Event) : option bool :=
  match evs with
  | [] => Some occupied
  | Opened _ :: rest => if occupied then None else track true rest
  | Closed _ :: rest => if occupied then track false rest else None
  end.

(** No bar of [df] produced an event. *)
Definition idle (n : nat) : list (list Event) := repeat [] n.

(** A fixed scenario: the default configuration, one losing long trade on
    2024-01-01, then a buy signal and a rally on 2024-01-02. *)
Definition at_ (d n : Z) : Time.Timestamp := Time.mkTs 2024 1 d n.

Definition day1 : list Row :=
  [ mkRow (at_ 1 0) (11000 # 10000) 1 0;
    mkRow (at_ 1 1) (10990 # 10000) 0 0 ].

Definition day2 : list Row :=
  [ mkRow (at_ 2 0) (11000 # 10000) 1 0;
    mkRow (at_ 2 1) (11015 # 10000) 0 0 ].

(** The state and the events of the first scenario after its first day. *)
Definition after_day1 : State * list (list Event) :=
  match run default_config "EURUSD=X" (init default_config) day1 with
  | Some r => r
  | None => (init default_config, [])
  end.

(** What the specification expects at a day boundary: the daily
    accumulator starts again from zero.  The simulator has no such step;
    this definition states the expectation only. *)
Definition spec_day_reset (st : State) : State :=
  mkState (trades st) (balance st) (position st) (consecutive_losses st) 0.

(** A second scenario: a balance of 16000 and three long trades stopped
    out in a row. *)
Definition big_account : Config := mkConfig (1 # 2) 3 8 12 16000.

Definition three_losses : list Row :=
  [ mkRow (at_ 1 0) (11000 # 10000) 1 0;
    mkRow (at_ 1 1) (10990 # 10000) 1 0;
    mkRow (at_ 1 2) (10980 # 10000) 1 0;
    mkRow (at_ 1 3) (10970 # 10000) 0 0 ].

Definition after_three_losses : State * list (list Event) :=
  match run big_account "EURUSD=X" (init big_account) three_losses with
  | Some r => r
  | None => (init big_account, [])
  end.

End SimSpec.

(* ================================================================= *)
(** ** Specification vocabulary for the metrics and the RSI *)

Module MetricsSpec.
Import Num Backtest.

(** A closed trade with the given profit or loss; the other fields play
    no part in the metrics. *)
Definition sample_trade (p : Q) : Trade :=
  mkTrade "EURUSD=X" BUY 1 1 (Time.mkTs 2024 1 1 0) (Time.mkTs 2024 1 1 1)
          (1 # 100) p 1 CLOSED.

Definition sample_pnl : list Q :=
  [50; -20; 30; -10; 40; -15; 25; -5; 60; -30].

(** The close-to-close deltas in the 14-bar window ending at bar [i]. *)
Definition deltas_at (closes : list Q) (i : nat) : list (option Q) :=
  window 14 i (diff closes).

Definition negative (d : option Q) : Prop :=
  match d with
  | Some x => x < 0
  | None => False
  end.

Definition positive (d : option Q) : Prop :=
  match d with
  | Some x => 0 < x
  | None => False
  end.

(** The RSI of bar [i]. *)
Definition rsi_at (closes : list Q) (i : nat) : fnum :=
  nth i (RSI closes) NaN.

End MetricsSpec.

(* ================================================================= *)
(** ** Specification vocabulary for the resampling engines *)

Module EngineSpec.
Import Num MonteCarlo.

(** A trade log with a single trade that won 100. *)
Definition single_win : list Backtest.Trade := [MetricsSpec.sample_trade 100].

(** Some stream of raw draws. *)
Definition sample_rng : Rng := fun n => (7 * n + 3)%nat.

(** Three trials resampled from the ten sample trades. *)
Definition sample_runs : list SimulationRun :=
  simulation_loop default_config sample_rng 0 MetricsSpec.sample_pnl 0 3.





(** A configuration that asks for a confidence level of 120 percent. *)
Definition overconfident : Config := mkConfig 1000 120 10.

(** A trade that closed at [exit]. *)
Definition closed_at (exit : Time.Timestamp) (p : Q) : Backtest.Trade :=
  Backtest.mkTrade "EURUSD=X" Backtest.BUY 1 1 (Time.mkTs 2022 12 1 0) exit
                   (1 # 100) p 1 Backtest.CLOSED.

(** A log of two trades that close 13 months apart. *)
Definition sparse_log : list Backtest.Trade :=
  [ closed_at (Time.mkTs 2023 1 1 0) 50;
    closed_at (Time.mkTs 2024 2 1 0) (-20) ].

(** The same log with a trade in between. *)
Definition dense_log : list Backtest.Trade :=
  [ closed_at (Time.mkTs 2023 1 1 0) 50;
    closed_at (Time.mkTs 2023 6 15 0) 30;
    closed_at (Time.mkTs 2024 2 1 0) (-20) ].

(** The earliest and the latest exit time of a log with first trade
    [t0]. *)
Definition log_start (t0 : Backtest.Trade) (rest : list Backtest.Trade)
    : Time.Timestamp :=
  ts_min (Backtest.exit_time t0) (map Backtest.exit_time rest).

Definition log_end (t0 : Backtest.Trade) (rest : list Backtest.Trade)
    : Time.Timestamp :=
  ts_max (Backtest.exit_time t0) (map Backtest.exit_time rest).

(** The rows of the sorted frame that close inside a period. *)
Definition closing_in
    (sort_values : list Backtest.Trade -> list Backtest.Trade)
    (period_start period_end : Time.Timestamp)
    (trades : list Backtest.Trade) : list Backtest.Trade :=
  filter (in_period period_start period_end) (sort_values trades).

End EngineSpec.

(* ================================================================= *)
(** ** [backtest.py]: moving averages, signals and the equity curve *)

Module Indicators.
Import Num Backtest.

(** The smoothing factor of [ewm(span=span)]. *)
Definition ewm_alpha (span : Q) : Q := 2 / (span + 1).

(** [Series.ewm(span=span).mean()] on a series without NaN, with the
    defaults of pandas ([adjust=True], no minimum number of periods): the
    running weighted mean [weighted] and the weight [old_wt] it carries. *)
Fixpoint ewm_from (alpha weighted old_wt : Q) (xs : list Q) : list Q :=
  match xs with
  | [] => []
  | cur :: rest =>
      let old_wt := old_wt * (1 - alpha) in
      let weighted :=
        if Qeq_bool weighted cur then weighted
        else (old_wt * weighted + 1 * cur) / (old_wt + 1) in
      weighted :: ewm_from alpha weighted (old_wt + 1) rest
  end.

Definition ewm_mean (span : Q) (xs : list Q) : list Q :=
  match xs with
  | [] => []
  | x :: rest => x :: ewm_from (ewm_alpha span) x 1 rest
  end.

(** The columns [EMA_20], [EMA_200] and [BB_Middle] of
    [calculate_indicators]. *)
Definition EMA_20 (closes : list Q) : list Q := ewm_mean 20 closes.
Definition EMA_200 (closes : list Q) : list Q := ewm_mean 200 closes.
Definition BB_Middle (closes : list Q) : list fnum := rolling_mean 20 closes.

(** One row of the indicator frame, with the columns that
    [generate_signals] reads. *)
Record IndicatorRow : Type := mkIndicatorRow {
  i_name : Time.Timestamp;
  i_Close : Q;
  i_EMA_20 : fnum;
  i_EMA_200 : fnum;
  i_BB_Position : fnum;
  i_RSI : fnum
}.

(** [x > y] on floats. *)
Definition fgt (x y : fnum) : bool := flt y x.

Definition buy_condition (r : IndicatorRow) : bool :=
  fgt (Fin (i_Close r)) (i_EMA_20 r)
  && fgt (Fin (i_Close r)) (i_EMA_200 r)
  && fgt (i_EMA_20 r) (i_EMA_200 r)
  && flt (i_BB_Position r) (Fin (3 # 10))
  && flt (i_RSI r) (Fin 70).

Definition sell_condition (r : IndicatorRow) : bool :=
  flt (Fin (i_Close r)) (i_EMA_20 r)
  && flt (Fin (i_Close r)) (i_EMA_200 r)
  && flt (i_EMA_20 r) (i_EMA_200 r)
  && fgt (i_BB_Position r) (Fin (7 # 10))
  && fgt (i_RSI r) (Fin 30).

(** [generate_signals].  The frame keeps its indicator columns; the
    simulator reads the index, [Close] and the two signal columns, which
    is what a [Row] holds. *)
Definition generate_signals (df : list IndicatorRow) : list Row :=
  map (fun r =>
         mkRow (i_name r) (i_Close r)
               (if buy_condition r then 1%Z else 0%Z)
               (if sell_condition r then 1%Z else 0%Z))
      df.




End Indicators.

(* ================================================================= *)
(** ** Further specification vocabulary *)

Module ExtraSpec.
Import Num Backtest.

(** A losing trade, as the simulator counts it. *)
Definition losing (t : Trade) : bool := Qltb (pnl t) 0.

(** Scans a trade log: the length of the losing streak the log ends on,
    and the length of the longest losing streak in it. *)
Definition streaks (log : list Trade) : nat * nat :=
  fold_left (fun '(cur, best) t =>
               let cur' := if losing t then S cur else O in
               (cur', Nat.max best cur'))
            log (O, O).



(** The bar of index [i] carries the timestamp [t]. *)
Definition bar_at (df : list Row) (i : nat) (t : Time.Timestamp) : Prop :=
  exists row, nth_error df i = Some row /\ name row = t.

(** A trade entered on one bar of [df] and closed on a later one. *)
Definition entered_before_exit (df : list Row) (t : Trade) : Prop :=
  exists i j, (i < j)%nat
              /\ bar_at df i (entry_time t) /\ bar_at df j (exit_time t).

(** All the values of a list lie in [[lo, hi]]. *)
Definition within (lo hi : Q) (xs : list Q) : Prop :=
  Forall (fun x => lo <= x <= hi) xs.



(** The state after the simulator has closed the position [p] on [row]. *)
Definition after_close (st : State) (p : Position) (row : Row) : State :=
  let trade_result := close_position p row (balance st) in
  mkState (trades st ++ [trade_result])
          (balance st + pnl trade_result)
          None
          (if Qltb (pnl trade_result) 0 then S (consecutive_losses st) else O)
          (daily_pnl st + pnl trade_result).


(** The counter of the simulator against the losing streaks of its trade
    log. *)
Definition streak_counted (st : State) : Prop :=
  fst (streaks (trades st)) = consecutive_losses st
  /\ (snd (streaks (trades st)) <= 3)%nat
  /\ (consecutive_losses st <= 3)%nat.



(** After the bars [pre]: the open position, if any, was entered on one of
    them, and every recorded trade was entered and closed on them, in
    this order. *)
Definition timed (pre : list Row) (st : State) : Prop :=
  (forall p, position st = Some p ->
             exists i, bar_at pre i (p_entry_time p))
  /\ Forall (entered_before_exit pre) (trades st).

End ExtraSpec.

Module WalkSpec.
Import Num MonteCarlo.

(** The start of the window of number [k]: the first exit moved [k] times
    by [step_months] months, each move as [pd.DateOffset] makes it (the
    day is cut back to the length of the month it lands in). *)
Fixpoint window_start (first : Time.Timestamp) (step_months : Z) (k : nat)
    : Time.Timestamp :=
  match k with
  | O => first
  | S k' => window_start (Time.add_months first step_months) step_months k'
  end.

(** A reported period of a walk-forward analysis with windows of
    [period_months] months over the sorted log [df_trades], whose last
    exit is [last_exit]: the window is whole, it ends no later than the
    last exit, it holds at least one trade, and its metrics are those of
    the trades that exit inside it. *)
Definition reported (cfg : Config) (df_trades : list Backtest.Trade)
    (last_exit : Time.Timestamp) (period_months : Z) (r : PeriodResult)
    : Prop :=
  end_date r = Time.add_months (start_date r) period_months
  /\ Time.leb (end_date r) last_exit = true
  /\ num_trades r
     = List.length (filter (in_period (start_date r) (end_date r)) df_trades)
  /\ (1 <= num_trades r)%nat
  /\ calculate_period_metrics cfg
       (filter (in_period (start_date r) (end_date r)) df_trades)
     = Some (metrics r)
  /\ pm_total_trades (metrics r) = num_trades r.

End WalkSpec.

Module IntervalSpec.
Import Num MonteCarlo.


End IntervalSpec.

(* ================================================================= *)
(** ** Facts about the number model *)

Section NumFacts.
Import Num.

Lemma Qltb_lt (a b : Q) : Qltb a b = true <-> a < b.
Proof.
  unfold Qltb. rewrite negb_true_iff.
  split; intro H.
  - destruct (Qlt_le_dec a b) as [L | L]; [exact L |].
    apply Qle_bool_iff in L. congruence.
  - destruct (Qle_bool b a) eqn:E; [| reflexivity].
    apply Qle_bool_iff in E. lra.
Qed.

Lemma Qltb_ge (a b : Q) : Qltb a b = false <-> b <= a.
Proof.
  unfold Qltb. rewrite negb_false_iff. apply Qle_bool_iff.
Qed.

Lemma Qeq_bool_false (a b : Q) : Qeq_bool a b = false <-> ~ a == b.
Proof.
  split.
  - apply Qeq_bool_neq.
  - intro H. destruct (Qeq_bool a b) eqn:E; [| reflexivity].
    apply Qeq_bool_iff in E. contradiction.
Qed.

End NumFacts.

(* ================================================================= *)
(** ** The trade simulator *)

Section Simulator.
Import Num Backtest SimSpec.

Variable cfg : Config.
Variable symbol : string.

(** A bar met with a closed gate leaves the state as it is. *)
Lemma step_gated (st : State) (row : Row) :
  daily_gate cfg st || losses_gate st = true ->
  step cfg symbol st row = Some (st, []).
Proof.
  unfold step. intro H.
  destruct (daily_gate cfg st); [reflexivity |].
  simpl in H. rewrite H. reflexivity.
Qed.

(** Neither gate reads the bar, so a closed gate stays closed. *)
Lemma run_gated (st : State) (df : list Row) :
  daily_gate cfg st || losses_gate st = true ->
  run cfg symbol st df = Some (st, idle (List.length df)).
Proof.
  intro H. induction df as [| row rest IH]; simpl.
  - reflexivity.
  - rewrite (step_gated st row H), IH. reflexivity.
Qed.

Lemma run_app (st : State) (df1 df2 : list Row) :
  run cfg symbol st (df1 ++ df2) =
  match run cfg symbol st df1 with
  | Some (st1, evs1) =>
      match run cfg symbol st1 df2 with
      | Some (st2, evs2) => Some (st2, evs1 ++ evs2)
      | None => None
      end
  | None => None
  end.
Proof.
  revert st. induction df1 as [| row rest IH]; intro st; simpl.
  - destruct (run cfg symbol st df2) as [[st2 evs2] |]; reflexivity.
  - destruct (step cfg symbol st row) as [[st' ev] |]; [| reflexivity].
    rewrite IH.
    destruct (run cfg symbol st' rest) as [[st1 evs1] |]; [| reflexivity].
    destruct (run cfg symbol st1 df2) as [[st2 evs2] |]; reflexivity.
Qed.

(** Once a gate is closed after [df], every longer run ends in the same
    state. *)
Lemma run_frozen (df rest : list Row) (st : State)
    (evs : list (list Event)) :
  run cfg symbol (init cfg) df = Some (st, evs) ->
  daily_gate cfg st || losses_gate st = true ->
  run cfg symbol (init cfg) (df ++ rest)
  = Some (st, evs ++ idle (List.length rest)).
Proof.
  intros Hrun Hgate.
  rewrite run_app, Hrun, (run_gated st rest Hgate). reflexivity.
Qed.

Lemma run_frozen_inv (df rest : list Row) (st st' : State)
    (evs evs' : list (list Event)) :
  run cfg symbol (init cfg) df = Some (st, evs) ->
  daily_gate cfg st || losses_gate st = true ->
  run cfg symbol (init cfg) (df ++ rest) = Some (st', evs') ->
  st' = st /\ evs' = evs ++ idle (List.length rest).
Proof.
  intros Hrun Hgate Hlong.
  rewrite (run_frozen df rest st evs Hrun Hgate) in Hlong.
  split; congruence.
Qed.

Lemma track_app (b : bool) (e1 e2 : list Event) :
  track b (e1 ++ e2) =
  match track b e1 with
  | Some b' => track b' e2
  | None => None
  end.
Proof.
  revert b. induction e1 as [| e rest IH]; intro b; simpl.
  - reflexivity.
  - destruct e, b; auto.
Qed.

Lemma close_phase_events (st st1 : State) (row : Row) (ev : list Event) :
  close_phase st row = (st1, ev) ->
  (ev = [] /\ st1 = st)
  \/ (exists t, ev = [Closed t] /\ held st = true /\ held st1 = false).
Proof.
  unfold close_phase, held.
  destruct (position st) as [p |] eqn:P.
  - destruct (should_close_position p row).
    + intro H. inversion H; subst; clear H. right.
      eexists. repeat split.
    + intro H. inversion H; subst. left. split; reflexivity.
  - intro H. inversion H; subst. left. split; reflexivity.
Qed.

Lemma pip_value_nonzero : ~ pip_value symbol == 0.
Proof.
  unfold pip_value. destruct (negb (contains "JPY" symbol)); intro H;
    discriminate H.
Qed.

(** Opening a position raises only for a zero stop-loss distance. *)
Lemma zero_distance (x : Q) :
  Qeq_bool (x * pip_value symbol * 100000) 0 = true -> x == 0.
Proof.
  intro E. apply Qeq_bool_iff in E.
  assert (M : x * pip_value symbol == 0) by lra.
  apply Qmult_integral in M. destruct M as [M | M]; [exact M |].
  destruct (pip_value_nonzero M).
Qed.

Lemma open_position_raises (d : Direction) (row : Row) (bal : Q) :
  open_position cfg d row symbol bal = None -> stop_loss_pips cfg == 0.
Proof.
  unfold open_position, calculate_position_size.
  destruct (Qeq_bool (stop_loss_pips cfg * pip_value symbol * 100000) 0)
    eqn:E.
  - intros _. exact (zero_distance _ E).
  - destruct d; discriminate.
Qed.

Lemma open_phase_events (st st2 : State) (row : Row) (ev : list Event) :
  open_phase cfg symbol st row = Some (st2, ev) ->
  (ev = [] /\ st2 = st)
  \/ (exists p, ev = [Opened p] /\ held st = false /\ held st2 = true).
Proof.
  unfold open_phase, held.
  destruct (position st) as [p |] eqn:P.
  - intro H. inversion H; subst. left. split; reflexivity.
  - destruct (Buy_Signal row =? 1)%Z.
    + destruct (open_position cfg BUY row symbol (balance st)) as [p |];
        [| discriminate].
      intro H. inversion H; subst. right. exists p. repeat split.
    + destruct (Sell_Signal row =? 1)%Z.
      * destruct (open_position cfg SELL row symbol (balance st)) as [p |];
          [| discriminate].
        intro H. inversion H; subst. right. exists p. repeat split.
      * intro H. inversion H; subst. left. split; reflexivity.
Qed.

Lemma open_phase_raises (st : State) (row : Row) :
  open_phase cfg symbol st row = None -> stop_loss_pips cfg == 0.
Proof.
  unfold open_phase.
  destruct (position st); [discriminate |].
  destruct (Buy_Signal row =? 1)%Z.
  - destruct (open_position cfg BUY row symbol (balance st)) eqn:E;
      [discriminate |]. intros _. exact (open_position_raises _ _ _ E).
  - destruct (Sell_Signal row =? 1)%Z; [| discriminate].
    destruct (open_position cfg SELL row symbol (balance st)) eqn:E;
      [discriminate |]. intros _. exact (open_position_raises _ _ _ E).
Qed.

(** One bar: its events have one of the four shapes, they replay from the
    occupancy before the bar, and they end in the occupancy after it. *)
Lemma step_events (st st' : State) (row : Row) (ev : list Event) :
  step cfg symbol st row = Some (st', ev) ->
  bar_shape ev /\ track (held st) ev = Some (held st').
Proof.
  unfold step.
  destruct (daily_gate cfg st).
  { intro H. inversion H; subst. split; [constructor | reflexivity]. }
  destruct (losses_gate st).
  { intro H. inversion H; subst. split; [constructor | reflexivity]. }
  destruct (close_phase st row) as [st1 ev1] eqn:C.
  destruct (open_phase cfg symbol st1 row) as [[st2 ev2] |] eqn:O;
    [| discriminate].
  intro H. inversion H; subst; clear H.
  apply close_phase_events in C. apply open_phase_events in O.
  destruct C as [[-> ->] | [t [-> [H1 H2]]]];
    destruct O as [[-> ->] | [p [-> [H3 H4]]]]; simpl.
  - split; [constructor | reflexivity].
  - split; [constructor |]. rewrite H3, H4. reflexivity.
  - split; [constructor |]. rewrite H1, H2. reflexivity.
  - split; [constructor |]. rewrite H1, H4. reflexivity.
Qed.

Lemma step_raises (st : State) (row : Row) :
  step cfg symbol st row = None -> stop_loss_pips cfg == 0.
Proof.
  unfold step.
  destruct (daily_gate cfg st); [discriminate |].
  destruct (losses_gate st); [discriminate |].
  destruct (close_phase st row) as [st1 ev1].
  destruct (open_phase cfg symbol st1 row) as [[st2 ev2] |] eqn:O;
    [discriminate |].
  intros _. exact (open_phase_raises _ _ O).
Qed.

Lemma run_events (df : list Row) (st : State) :
  match run cfg symbol st df with
  | Some (st', evs) =>
      Forall bar_shape evs /\ track (held st) (List.concat evs) = Some (held st')
  | None => stop_loss_pips cfg == 0
  end.
Proof.
  revert st. induction df as [| row rest IH]; intro st; simpl.
  - split; [constructor | reflexivity].
  - destruct (step cfg symbol st row) as [[st1 ev] |] eqn:S1.
    + specialize (IH st1).
      destruct (run cfg symbol st1 rest) as [[st2 evs] |].
      * destruct IH as [F T]. apply step_events in S1.
        destruct S1 as [B T1]. split.
        -- constructor; assumption.
        -- simpl. rewrite track_app, T1. exact T.
      * exact IH.
    + exact (step_raises _ _ S1).
Qed.

End Simulator.

Section SimulatorClaims.
Import Num Backtest SimSpec.

(** C9. The simulator never holds two positions at once.  For every
    configuration, symbol and bar sequence, a run that returns has
    produced, bar by bar, only event lists of the shapes "nothing",
    "close", "open" and "close then open" (so an open on a bar comes after
    the close of that bar), and replaying all events from an empty slot
    never meets an open while a position is held: the state is FLAT
    immediately before every open.  A run that does not return has raised
    the division error of a zero stop-loss distance. *)
Theorem one_position_at_a_time (cfg : Config) (symbol : string)
    (df : list Row) :
  match run cfg symbol (init cfg) df with
  | Some (st, evs) =>
      Forall bar_shape evs
      /\ track false (List.concat evs) = Some (held st)
  | None => stop_loss_pips cfg == 0
  end.
Proof.
  exact (run_events cfg symbol df (init cfg)).
Qed.

(** C2, as the code has it.  Once a run has reached three consecutive
    losses, every further bar is skipped: whatever bars follow, the run
    ends in the same state (same trade log, same position slot, same
    counter), and no later bar produces an event. *)
Theorem loss_pause_never_ends (cfg : Config) (symbol : string)
    (df rest : list Row) (st : State) (evs : list (list Event)) :
  run cfg symbol (init cfg) df = Some (st, evs) ->
  (3 <= consecutive_losses st)%nat ->
  run cfg symbol (init cfg) (df ++ rest)
  = Some (st, evs ++ idle (List.length rest))
  /\ simulate_trades cfg (df ++ rest) symbol = Some (trades st).
Proof.
  intros Hrun Hcount.
  assert (G : daily_gate cfg st || losses_gate st = true).
  { unfold losses_gate. apply orb_true_iff. right.
    apply Nat.leb_le. exact Hcount. }
  pose proof (run_frozen cfg symbol df rest st evs Hrun G) as F.
  split; [exact F |].
  unfold simulate_trades. rewrite F. reflexivity.
Qed.

Lemma loss_pause_never_ends_witness :
  run big_account "EURUSD=X" (init big_account) three_losses
  = Some (fst after_three_losses, snd after_three_losses)
  /\ (3 <= consecutive_losses (fst after_three_losses))%nat
  /\ run big_account "EURUSD=X" (init big_account) (three_losses ++ day2)
     = Some (fst after_three_losses, snd after_three_losses ++ idle 2)
  /\ simulate_trades big_account (three_losses ++ day2) "EURUSD=X"
     = Some (trades (fst after_three_losses)).
Proof.
  assert (H1 : run big_account "EURUSD=X" (init big_account) three_losses
               = Some (fst after_three_losses, snd after_three_losses))
    by (vm_compute; reflexivity).
  assert (H2 : (3 <= consecutive_losses (fst after_three_losses))%nat)
    by (vm_compute; apply le_n).
  split; [exact H1 |]. split; [exact H2 |].
  exact (loss_pause_never_ends big_account "EURUSD=X" three_losses day2
           _ _ H1 H2).
Defined.

(** C2, as the specification words it, fails: after the three losing
    trades of the second scenario the counter stands at 3, and no
    continuation of the bar sequence brings it back to zero. *)
Lemma loss_pause_has_no_release :
  run big_account "EURUSD=X" (init big_account) three_losses
  = Some (fst after_three_losses, snd after_three_losses)
  /\ consecutive_losses (fst after_three_losses) = 3%nat
  /\ ~ (exists rest st' evs',
          run big_account "EURUSD=X" (init big_account)
              (three_losses ++ rest) = Some (st', evs')
          /\ consecutive_losses st' = 0%nat).
Proof.
  assert (H1 : run big_account "EURUSD=X" (init big_account) three_losses
               = Some (fst after_three_losses, snd after_three_losses))
    by (vm_compute; reflexivity).
  split; [exact H1 |]. split; [vm_compute; reflexivity |].
  intros [rest [st' [evs' [Hrun Hzero]]]].
  assert (G : daily_gate big_account (fst after_three_losses)
              || losses_gate (fst after_three_losses) = true)
    by (vm_compute; reflexivity).
  destruct (run_frozen_inv big_account "EURUSD=X" three_losses rest
              _ _ _ _ H1 G Hrun) as [E _].
  rewrite E in Hzero. vm_compute in Hzero. discriminate Hzero.
Qed.

(** C1, evaluated on the first scenario.  The losing trade of 2024-01-01
    takes the accumulator to -1, below the limit of -0.27, and the gate
    closes.  The bars of 2024-01-02 are then skipped as well: the
    accumulator still reads -1, the buy signal opens nothing and the trade
    log keeps its single trade.  Had the accumulator been reset at the day
    boundary, the same two bars would have opened a long position and
    closed it at a profit. *)
Theorem daily_gate_outlives_the_day :
  run default_config "EURUSD=X" (init default_config) day1
  = Some (fst after_day1, snd after_day1)
  /\ daily_gate default_config (fst after_day1) = true
  /\ Forall (fun r => Time.date (name r) = (2024, 1, 1)%Z) day1
  /\ Forall (fun r => Time.date (name r) = (2024, 1, 2)%Z) day2
  /\ run default_config "EURUSD=X" (init default_config) (day1 ++ day2)
     = Some (fst after_day1, snd after_day1 ++ [[]; []])
  /\ daily_pnl (fst after_day1) == -1
  /\ List.length (trades (fst after_day1)) = 1%nat
  /\ (exists st evs,
        run default_config "EURUSD=X" (spec_day_reset (fst after_day1)) day2
        = Some (st, evs)
        /\ List.length (trades st) = 2%nat
        /\ List.length (List.concat evs) = 2%nat).
Proof.
  assert (H1 : run default_config "EURUSD=X" (init default_config) day1
               = Some (fst after_day1, snd after_day1))
    by (vm_compute; reflexivity).
  split; [exact H1 |].
  split; [vm_compute; reflexivity |].
  split; [repeat constructor |].
  split; [repeat constructor |].
  split.
  { rewrite (run_frozen default_config "EURUSD=X" day1 day2 _ _ H1)
      by (vm_compute; reflexivity).
    reflexivity. }
  split; [vm_compute; reflexivity |].
  split; [vm_compute; reflexivity |].
  eexists. eexists. split; [vm_compute; reflexivity |].
  split; reflexivity.
Qed.

End SimulatorClaims.

(* ================================================================= *)
(** ** Sums of rationals *)

Section Sums.
Import Num.

Lemma fold_Qplus (xs : list Q) (a : Q) :
  fold_left Qplus xs a == a + Qsum xs.
Proof.
  unfold Qsum. revert a.
  induction xs as [| x rest IH]; intro a; simpl.
  - ring.
  - rewrite (IH (a + x)), (IH (0 + x)). ring.
Qed.

Lemma Qsum_cons (x : Q) (xs : list Q) : Qsum (x :: xs) == x + Qsum xs.
Proof.
  unfold Qsum at 1. simpl. rewrite fold_Qplus. ring.
Qed.

Lemma Qsum_nonneg (xs : list Q) :
  Forall (fun x => 0 <= x) xs -> 0 <= Qsum xs.
Proof.
  induction 1 as [| x rest Hx _ IH].
  - unfold Qsum; simpl. lra.
  - rewrite Qsum_cons. lra.
Qed.

Lemma Qsum_zero (xs : list Q) :
  Forall (fun x => x == 0) xs -> Qsum xs == 0.
Proof.
  induction 1 as [| x rest Hx _ IH].
  - reflexivity.
  - rewrite Qsum_cons. lra.
Qed.

Lemma Qsum_positive (xs : list Q) :
  Forall (fun x => 0 <= x) xs -> Exists (fun x => 0 < x) xs -> 0 < Qsum xs.
Proof.
  intros F E. induction E as [x rest Hx | x rest _ IH].
  - inversion F; subst. rewrite Qsum_cons.
    pose proof (Qsum_nonneg rest H2). lra.
  - inversion F; subst. rewrite Qsum_cons. specialize (IH H2). lra.
Qed.


Lemma Qnat_pos (n : nat) : (0 < n)%nat -> 0 < Backtest.Qnat n.
Proof.
  intro H. unfold Backtest.Qnat.
  change 0 with (inject_Z 0). rewrite <- Zlt_Qlt. lia.
Qed.

End Sums.

(* ================================================================= *)
(** ** The metrics calculator *)

Section MetricsClaims.
Import Num Backtest MetricsSpec.

Lemma gross_loss_nonneg (returns : list Q) : 0 <= gross_loss returns.
Proof.
  unfold gross_loss. apply Qabs_nonneg.
Qed.

(** The profit factor, read off the definition of the calculator. *)
Lemma profit_factor_eq (trades : list Trade) (m : Metrics) :
  calculate_performance_metrics trades = Some m ->
  total_profit m = gross_profit (map pnl trades)
  /\ total_loss m = gross_loss (map pnl trades)
  /\ profit_factor m =
     if Qltb 0 (gross_loss (map pnl trades))
     then Fin (gross_profit (map pnl trades) / gross_loss (map pnl trades))
     else PInf.
Proof.
  unfold calculate_performance_metrics.
  destruct trades as [| t rest]; [discriminate |].
  intro H. injection H as <-. cbn [total_profit total_loss profit_factor].
  repeat split.
Qed.

(** C3. The metrics of an empty trade list: the calculator returns the
    empty record without raising; no field is defined in it, and a field
    read with a default, the way every caller reads it, gives the default
    (0 in the callers). *)
Theorem metrics_of_no_trades :
  calculate_performance_metrics [] = None
  /\ (forall k, lookup (calculate_performance_metrics []) k = None)
  /\ (forall k default,
        get (calculate_performance_metrics []) k default = default)
  /\ get (calculate_performance_metrics []) k_total_trades (VCount 0)
     = VCount 0
  /\ get (calculate_performance_metrics []) k_net_profit (VNum 0) = VNum 0
  /\ get (calculate_performance_metrics []) k_profit_factor (VNum 0)
     = VNum 0.
Proof.
  repeat split.
Qed.

(** C4, as the code has it.  For every nonempty trade list the calculator
    returns a record whose profit factor is gross profit divided by gross
    loss when the gross loss is positive, and +infinity whenever the gross
    loss is zero, whatever the gross profit; the gross loss is never
    negative, so these are all the cases.  The period metrics of the
    walk-forward analysis compute the same profit factor. *)
Theorem profit_factor_cases (trades : list Trade) :
  trades <> [] ->
  exists m,
    calculate_performance_metrics trades = Some m
    /\ total_profit m = gross_profit (map pnl trades)
    /\ total_loss m = gross_loss (map pnl trades)
    /\ 0 <= total_loss m
    /\ (0 < total_loss m ->
        profit_factor m = Fin (total_profit m / total_loss m))
    /\ (total_loss m == 0 -> profit_factor m = PInf)
    /\ (forall cfg, exists pm,
          MonteCarlo.calculate_period_metrics cfg trades = Some pm
          /\ MonteCarlo.pm_profit_factor pm = profit_factor m).
Proof.
  intro NE.
  destruct trades as [| t rest]; [contradiction |].
  destruct (calculate_performance_metrics (t :: rest)) as [m |] eqn:E;
    [| discriminate E].
  exists m. split; [reflexivity |].
  destruct (profit_factor_eq _ _ E) as [P [L F]].
  rewrite P, L, F. split; [reflexivity |]. split; [reflexivity |].
  split; [apply gross_loss_nonneg |]. split; [| split].
  - intro H. apply Qltb_lt in H. rewrite H. reflexivity.
  - intro H.
    destruct (Qltb 0 (gross_loss (map pnl (t :: rest)))) eqn:B;
      [| reflexivity].
    apply Qltb_lt in B. lra.
  - intro cfg. eexists. split; reflexivity.
Qed.

Lemma profit_factor_cases_witness :
  map sample_trade sample_pnl <> []
  /\ exists m,
       calculate_performance_metrics (map sample_trade sample_pnl) = Some m
       /\ total_profit m = gross_profit (map pnl (map sample_trade sample_pnl))
       /\ total_loss m = gross_loss (map pnl (map sample_trade sample_pnl))
       /\ 0 <= total_loss m
       /\ (0 < total_loss m ->
           profit_factor m = Fin (total_profit m / total_loss m))
       /\ (total_loss m == 0 -> profit_factor m = PInf)
       /\ (forall cfg, exists pm,
             MonteCarlo.calculate_period_metrics cfg
               (map sample_trade sample_pnl) = Some pm
             /\ MonteCarlo.pm_profit_factor pm = profit_factor m).
Proof.
  split.
  - discriminate.
  - apply (profit_factor_cases (map sample_trade sample_pnl)). discriminate.
Defined.

(** C4, as the specification words it, fails when gross profit and gross
    loss are both zero: for a single trade that broke even the profit
    factor is +infinity, not 0. *)
Lemma profit_factor_of_flat_trade :
  exists m,
    calculate_performance_metrics [sample_trade 0] = Some m
    /\ total_profit m == 0
    /\ total_loss m == 0
    /\ profit_factor m = PInf
    /\ profit_factor m <> Fin 0.
Proof.
  eexists. split; [reflexivity |].
  cbn [total_profit total_loss profit_factor].
  split; [vm_compute; reflexivity |].
  split; [vm_compute; reflexivity |].
  split; [vm_compute; reflexivity |].
  vm_compute. discriminate.
Qed.

(** C5. Any ten trades whose profits and losses are
    50, -20, 30, -10, 40, -15, 25, -5, 60, -30, in this order, give 5
    winning trades, 5 losing trades, a net profit of 125 and a win rate of
    50 percent. *)
Theorem metrics_of_sample (trades : list Trade) :
  map pnl trades = sample_pnl ->
  exists m,
    calculate_performance_metrics trades = Some m
    /\ total_trades m = 10%nat
    /\ winning_trades m = 5%nat
    /\ losing_trades m = 5%nat
    /\ net_profit m == 125
    /\ win_rate m == 50.
Proof.
  intro H.
  assert (L : List.length trades = 10%nat).
  { rewrite <- (length_map pnl), H. reflexivity. }
  unfold calculate_performance_metrics.
  destruct trades as [| t rest]; [discriminate H |].
  rewrite H, L. eexists. split; [reflexivity |].
  cbn [total_trades winning_trades losing_trades net_profit win_rate].
  repeat split; vm_compute; reflexivity.
Qed.

Lemma metrics_of_sample_witness :
  map pnl (map sample_trade sample_pnl) = sample_pnl
  /\ exists m,
       calculate_performance_metrics (map sample_trade sample_pnl) = Some m
       /\ total_trades m = 10%nat
       /\ winning_trades m = 5%nat
       /\ losing_trades m = 5%nat
       /\ net_profit m == 125
       /\ win_rate m == 50.
Proof.
  split.
  - reflexivity.
  - apply (metrics_of_sample (map sample_trade sample_pnl)). reflexivity.
Defined.

End MetricsClaims.

(* ================================================================= *)
(** ** The RSI column *)

Section RsiClaims.
Import Num Backtest MetricsSpec.

Lemma length_diff_from (prev : Q) (xs : list Q) :
  List.length (diff_from prev xs) = List.length xs.
Proof.
  revert prev. induction xs as [| x rest IH]; intro prev; simpl.
  - reflexivity.
  - rewrite IH. reflexivity.
Qed.

Lemma length_diff (xs : list Q) : List.length (diff xs) = List.length xs.
Proof.
  destruct xs as [| x rest]; simpl; [reflexivity |].
  rewrite length_diff_from. reflexivity.
Qed.

Lemma length_rolling_mean (w : nat) (xs : list Q) :
  List.length (rolling_mean w xs) = List.length xs.
Proof.
  unfold rolling_mean. rewrite length_map, length_seq. reflexivity.
Qed.

Lemma nth_rolling_mean (w : nat) (xs : list Q) (i : nat) :
  (i < List.length xs)%nat ->
  nth i (rolling_mean w xs) NaN = rolling_mean_at w xs i.
Proof.
  intro H. unfold rolling_mean.
  rewrite (nth_indep _ NaN (rolling_mean_at w xs 0%nat))
    by (rewrite length_map, length_seq; exact H).
  rewrite map_nth, seq_nth by exact H. reflexivity.
Qed.

Lemma nth_zip_with {A B C : Type} (f : A -> B -> C) (xs : list A)
    (ys : list B) (i : nat) (da : A) (db : B) (dc : C) :
  (i < List.length xs)%nat -> (i < List.length ys)%nat ->
  nth i (zip_with f xs ys) dc = f (nth i xs da) (nth i ys db).
Proof.
  revert ys i. induction xs as [| x rest IH]; intros ys i Hx Hy.
  - simpl in Hx. lia.
  - destruct ys as [| y ys']; [simpl in Hy; lia |].
    destruct i as [| i]; simpl; [reflexivity |].
    apply IH; simpl in *; lia.
Qed.

Lemma window_map {A B : Type} (f : A -> B) (w i : nat) (xs : list A) :
  window w i (map f xs) = map f (window w i xs).
Proof.
  unfold window. rewrite skipn_map, firstn_map. reflexivity.
Qed.

(** Past the warm-up, the RSI of a bar is [rsi_of] applied to the means of
    the gains and of the losses in the window of the bar. *)
Lemma rsi_at_window (closes : list Q) (i : nat) :
  (13 <= i < List.length closes)%nat ->
  rsi_at closes i =
  rsi_of (Fin (Qsum (map gain_of (deltas_at closes i)) / 14))
         (Fin (Qsum (map loss_of (deltas_at closes i)) / 14)).
Proof.
  intros [Lo Hi]. unfold rsi_at, RSI, deltas_at.
  rewrite (nth_zip_with rsi_of _ _ i NaN NaN NaN)
    by (rewrite length_rolling_mean, length_map, length_diff; exact Hi).
  rewrite !nth_rolling_mean by (rewrite length_map, length_diff; exact Hi).
  unfold rolling_mean_at.
  assert (W : (i + 1 <? 14)%nat = false) by (apply Nat.ltb_ge; lia).
  rewrite W, !window_map. reflexivity.
Qed.

(** In the warm-up the RSI is NaN. *)
Lemma rsi_at_warmup (closes : list Q) (i : nat) :
  (i < 13)%nat -> rsi_at closes i = NaN.
Proof.
  intro Lo. unfold rsi_at, RSI.
  destruct (Nat.lt_ge_cases i (List.length closes)) as [Hi | Hi].
  - rewrite (nth_zip_with rsi_of _ _ i NaN NaN NaN)
      by (rewrite length_rolling_mean, length_map, length_diff; exact Hi).
    rewrite !nth_rolling_mean by (rewrite length_map, length_diff; exact Hi).
    unfold rolling_mean_at.
    assert (W : (i + 1 <? 14)%nat = true) by (apply Nat.ltb_lt; lia).
    rewrite W. reflexivity.
  - apply nth_overflow.
    assert (L : forall (xs : list fnum) ys,
               (List.length (zip_with rsi_of xs ys) <= List.length xs)%nat).
    { induction xs as [| x rest IH]; intros [| y ys]; simpl; try lia.
      specialize (IH ys). lia. }
    etransitivity; [apply L |].
    rewrite length_rolling_mean, length_map, length_diff. exact Hi.
Qed.

Lemma gains_nonneg (ds : list (option Q)) :
  Forall (fun x => 0 <= x) (map gain_of ds).
Proof.
  apply Forall_map, Forall_forall. intros [x |] _; simpl; [| lra].
  destruct (Qltb 0 x) eqn:E; [apply Qltb_lt in E; lra | lra].
Qed.

Lemma losses_nonneg (ds : list (option Q)) :
  Forall (fun x => 0 <= x) (map loss_of ds).
Proof.
  apply Forall_map, Forall_forall. intros [x |] _; unfold loss_of; [| lra].
  destruct (Qltb x 0) eqn:E; [apply Qltb_lt in E; lra | lra].
Qed.

Lemma gains_positive (ds : list (option Q)) :
  Exists positive ds -> 0 < Qsum (map gain_of ds).
Proof.
  intro E. apply Qsum_positive; [apply gains_nonneg |].
  apply Exists_map. apply Exists_exists in E. apply Exists_exists.
  destruct E as [[x |] [I P]]; [| destruct P].
  exists (Some x). split; [exact I |]. simpl in *.
  apply Qltb_lt in P. rewrite P. apply Qltb_lt. exact P.
Qed.

Lemma losses_positive (ds : list (option Q)) :
  Exists negative ds -> 0 < Qsum (map loss_of ds).
Proof.
  intro E. apply Qsum_positive; [apply losses_nonneg |].
  apply Exists_map. apply Exists_exists in E. apply Exists_exists.
  destruct E as [[x |] [I P]]; [| destruct P].
  exists (Some x). split; [exact I |]. unfold loss_of. simpl in P.
  assert (B : Qltb x 0 = true) by (apply Qltb_lt; exact P).
  rewrite B. lra.
Qed.

Lemma gains_zero (ds : list (option Q)) :
  Forall (fun d => ~ positive d) ds -> Qsum (map gain_of ds) == 0.
Proof.
  intro F. apply Qsum_zero, Forall_map.
  eapply Forall_impl; [| exact F].
  intros [x |] N; simpl in *; [| reflexivity].
  destruct (Qltb 0 x) eqn:E; [| reflexivity].
  apply Qltb_lt in E. contradiction.
Qed.

Lemma losses_zero (ds : list (option Q)) :
  Forall (fun d => ~ negative d) ds -> Qsum (map loss_of ds) == 0.
Proof.
  intro F. apply Qsum_zero, Forall_map.
  eapply Forall_impl; [| exact F].
  intros [x |] N; unfold loss_of; simpl in *; [| reflexivity].
  destruct (Qltb x 0) eqn:E; [| reflexivity].
  apply Qltb_lt in E. contradiction.
Qed.

(** The three regimes of [rsi_of] on nonnegative averages. *)
Lemma rsi_of_no_loss (g l : Q) :
  0 < g -> l == 0 -> exists r, rsi_of (Fin g) (Fin l) = Fin r /\ r == 100.
Proof.
  intros G L. unfold rsi_of, fdiv.
  rewrite (Qeq_eq_bool _ _ L).
  assert (B : Qltb 0 g = true) by (apply Qltb_lt; exact G).
  rewrite B. simpl. eexists. split; [reflexivity |]. ring.
Qed.

Lemma rsi_of_flat (g l : Q) :
  g == 0 -> l == 0 -> rsi_of (Fin g) (Fin l) = NaN.
Proof.
  intros G L. unfold rsi_of, fdiv.
  rewrite (Qeq_eq_bool _ _ L).
  assert (B1 : Qltb 0 g = false) by (apply Qltb_ge; lra).
  assert (B2 : Qltb g 0 = false) by (apply Qltb_ge; lra).
  rewrite B1, B2. reflexivity.
Qed.

Lemma rsi_of_some_loss (g l : Q) :
  0 <= g -> 0 < l ->
  exists r, rsi_of (Fin g) (Fin l) = Fin r /\ 0 <= r /\ r < 100.
Proof.
  intros G L. unfold rsi_of, fdiv.
  assert (B : Qeq_bool l 0 = false) by (apply Qeq_bool_false; lra).
  rewrite B. cbn [fadd].
  assert (R : 0 <= g / l) by (apply Qle_shift_div_l; lra).
  assert (B' : Qeq_bool (1 + g / l) 0 = false)
    by (apply Qeq_bool_false; lra).
  rewrite B'. cbn [fsub fneg fadd].
  eexists. split; [reflexivity |].
  assert (U : 100 / (1 + g / l) <= 100)
    by (apply Qle_shift_div_r; lra).
  assert (P : 0 < 100 / (1 + g / l))
    by (apply Qlt_shift_div_l; lra).
  lra.
Qed.

Lemma mean14_sign (s : Q) :
  (0 <= s -> 0 <= s / 14) /\ (0 < s -> 0 < s / 14) /\ (s == 0 -> s / 14 == 0).
Proof.
  repeat split; intro H.
  - apply Qle_shift_div_l; lra.
  - apply Qlt_shift_div_l; lra.
  - rewrite H. reflexivity.
Qed.

(** C6, as the code has it.  Past the warm-up the RSI of a bar is either
    NaN or a number of [0, 100].  It is exactly 100 when no delta of the
    trailing 14-bar window is negative and at least one is positive; it is
    NaN, not 100, when no delta of the window is negative and none is
    positive (the division 0/0 is not guarded); and it is a number below
    100 when some delta of the window is negative. *)
Theorem rsi_range_and_extremes (closes : list Q) (i : nat) :
  (13 <= i < List.length closes)%nat ->
  (rsi_at closes i = NaN
   \/ exists r, rsi_at closes i = Fin r /\ 0 <= r <= 100)
  /\ (Forall (fun d => ~ negative d) (deltas_at closes i) ->
      Exists positive (deltas_at closes i) ->
      exists r, rsi_at closes i = Fin r /\ r == 100)
  /\ (Forall (fun d => ~ negative d) (deltas_at closes i) ->
      Forall (fun d => ~ positive d) (deltas_at closes i) ->
      rsi_at closes i = NaN)
  /\ (Exists negative (deltas_at closes i) ->
      exists r, rsi_at closes i = Fin r /\ 0 <= r /\ r < 100).
Proof.
  intro H. rewrite (rsi_at_window closes i H).
  set (ds := deltas_at closes i).
  pose proof (Qsum_nonneg _ (gains_nonneg ds)) as G0.
  pose proof (Qsum_nonneg _ (losses_nonneg ds)) as L0.
  destruct (mean14_sign (Qsum (map gain_of ds))) as [G1 [G2 G3]].
  destruct (mean14_sign (Qsum (map loss_of ds))) as [L1 [L2 L3]].
  split; [| split; [| split]].
  - destruct (Qlt_le_dec 0 (Qsum (map loss_of ds))) as [Lp | Lz].
    + destruct (rsi_of_some_loss _ _ (G1 G0) (L2 Lp)) as [r [E [A B]]].
      right. exists r. split; [exact E | lra].
    + assert (Lz' : Qsum (map loss_of ds) == 0) by lra.
      destruct (Qlt_le_dec 0 (Qsum (map gain_of ds))) as [Gp | Gz].
      * destruct (rsi_of_no_loss _ _ (G2 Gp) (L3 Lz')) as [r [E A]].
        right. exists r. split; [exact E | lra].
      * left. apply rsi_of_flat; [apply G3; lra | exact (L3 Lz')].
  - intros NN P.
    exact (rsi_of_no_loss _ _ (G2 (gains_positive ds P))
                          (L3 (losses_zero ds NN))).
  - intros NN NP.
    exact (rsi_of_flat _ _ (G3 (gains_zero ds NP)) (L3 (losses_zero ds NN))).
  - intro N.
    exact (rsi_of_some_loss _ _ (G1 G0) (L2 (losses_positive ds N))).
Qed.

Lemma rsi_range_and_extremes_witness :
  (13 <= 13 < List.length (repeat 1 14))%nat
  /\ (rsi_at (repeat 1 14) 13 = NaN
      \/ exists r, rsi_at (repeat 1 14) 13 = Fin r /\ 0 <= r <= 100).
Proof.
  assert (H : (13 <= 13 < List.length (repeat 1 14))%nat) by (simpl; lia).
  split; [exact H |].
  exact (proj1 (rsi_range_and_extremes (repeat 1 14) 13 H)).
Defined.

(** C6, as the specification words it, fails on a flat series: with 14
    equal closes no delta of the window of bar 13 is negative, and the RSI
    of that bar is NaN, not 100. *)
Lemma rsi_of_flat_series :
  (13 < List.length (repeat 1 14))%nat
  /\ Forall (fun d => ~ negative d) (deltas_at (repeat 1 14) 13)
  /\ rsi_at (repeat 1 14) 13 = NaN
  /\ rsi_at (repeat 1 14) 13 <> Fin 100.
Proof.
  split; [simpl; lia |].
  split.
  { unfold deltas_at. cbn.
    repeat constructor; simpl; try tauto; intro N; discriminate N. }
  split; [vm_compute; reflexivity |].
  vm_compute. discriminate.
Qed.

End RsiClaims.

(* ================================================================= *)
(** ** The Monte Carlo engine *)

Section MonteCarloClaims.
Import Num MonteCarlo EngineSpec.


Lemma length_simulation_loop (cfg : Config) (rng : Rng) (xs : list Q)
    (todo pos run : nat) :
  List.length (simulation_loop cfg rng pos xs run todo) = todo.
Proof.
  revert pos run. induction todo as [| k IH]; intros pos run; simpl.
  - reflexivity.
  - rewrite IH. reflexivity.
Qed.






Lemma Qnat_nonzero (n : nat) : (0 < n)%nat -> ~ Backtest.Qnat n == 0.
Proof.
  intros H E. pose proof (Qnat_pos n H). lra.
Qed.



Lemma percentile_out_of_range (values : list Q) (q : Q) :
  q < 0 \/ 100 < q -> percentile values q = Raised ValueError.
Proof.
  intros [H | H]; unfold percentile.
  - assert (B : Qltb q 0 = true) by (apply Qltb_lt; exact H).
    rewrite B. reflexivity.
  - assert (B : Qltb 100 q = true) by (apply Qltb_lt; exact H).
    rewrite B, orb_true_r. reflexivity.
Qed.


Lemma alpha_out_of_range (c : Q) :
  c < -100 \/ 100 < c ->
  (100 - c) / 100 / 2 * 100 < 0 \/ 100 < (100 - c) / 100 / 2 * 100.
Proof.
  intro H.
  assert (E1 : (100 - c) / 100 / 2 * 100 == (100 - c) * (1 # 2)) by field.
  rewrite E1. destruct H as [H | H]; [right | left]; lra.
Qed.




(** With any other confidence level the first percentile asked for is
    out of range, and [np.percentile] raises. *)
Lemma confidence_intervals_raise (results_df : list SimulationRun)
    (c : Q) :
  results_df <> [] -> c < -100 \/ 100 < c ->
  calculate_confidence_intervals results_df ((100 - c) / 100)
  = Raised ValueError.
Proof.
  intros NE H. unfold calculate_confidence_intervals.
  destruct results_df as [| r rest]; [contradiction |].
  unfold interval_of at 1.
  rewrite (percentile_out_of_range _ _ (alpha_out_of_range c H)).
  reflexivity.
Qed.




(** A total return that is a number, or an infinity, is either at least 0
    or below 0, and not both. *)
Lemma sign_split (x : fnum) :
  x <> NaN -> flt x (Fin 0) = negb (fge x (Fin 0)).
Proof.
  destruct x as [a | | |]; intro H; try reflexivity.
  destruct (H eq_refl).
Qed.

Lemma counts_partition (results_df : list SimulationRun) :
  Forall (fun r => total_return r <> NaN) results_df ->
  (count_ge results_df 0 + count_lt results_df 0)%nat
  = List.length results_df.
Proof.
  unfold count_ge, count_lt.
  induction 1 as [| r rest Hr _ IH]; [reflexivity |].
  cbn [filter]. rewrite (sign_split _ Hr).
  destruct (fge (total_return r) (Fin 0)); cbn [negb List.length];
    rewrite <- IH; lia.
Qed.

Lemma percent_of_nonempty (count total : nat) :
  (0 < total)%nat ->
  percent_of count total
  = Fin (Backtest.Qnat count / Backtest.Qnat total * 100).
Proof.
  intro H. unfold percent_of, fdiv.
  assert (B : Qeq_bool (Backtest.Qnat total) 0 = false)
    by (apply Qeq_bool_false, Qnat_nonzero; exact H).
  rewrite B. reflexivity.
Qed.

Lemma percents_sum (a b n : nat) :
  (0 < n)%nat -> (a + b)%nat = n ->
  Backtest.Qnat a / Backtest.Qnat n * 100
  + Backtest.Qnat b / Backtest.Qnat n * 100 == 100.
Proof.
  intros N E.
  assert (S : Backtest.Qnat a + Backtest.Qnat b == Backtest.Qnat n).
  { unfold Backtest.Qnat. rewrite <- inject_Z_plus, <- Nat2Z.inj_add, E.
    reflexivity. }
  rewrite <- S.
  assert (NZ : ~ Backtest.Qnat a + Backtest.Qnat b == 0)
    by (rewrite S; exact (Qnat_nonzero n N)).
  field. exact NZ.
Qed.

Lemma partition_of_numbers (results_df : list SimulationRun) :
  results_df <> [] ->
  Forall (fun r => total_return r <> NaN) results_df ->
  exists b l,
    probability (breakeven (calculate_target_probabilities results_df))
    = Fin b
    /\ probability (loss (calculate_target_probabilities results_df))
       = Fin l
    /\ b + l == 100.
Proof.
  intros NE F.
  assert (N : (0 < List.length results_df)%nat).
  { destruct results_df; [contradiction | simpl; lia]. }
  unfold calculate_target_probabilities. cbn [breakeven loss probability].
  rewrite !percent_of_nonempty by exact N.
  eexists. eexists. split; [reflexivity |]. split; [reflexivity |].
  exact (percents_sum _ _ _ N (counts_partition results_df F)).
Qed.

(** The total returns produced by the simulation are numbers as soon as
    the initial balance is not zero. *)
Lemma simulated_returns_are_numbers (cfg : Config) (rng : Rng)
    (xs : list Q) (todo pos run : nat) :
  ~ initial_balance cfg == 0 ->
  Forall (fun r => total_return r <> NaN)
         (simulation_loop cfg rng pos xs run todo).
Proof.
  intro NZ. revert pos run.
  induction todo as [| k IH]; intros pos run; cbn [simulation_loop];
    constructor; [| apply IH].
  unfold simulate_run. cbn [total_return]. unfold fdiv.
  assert (B : Qeq_bool (initial_balance cfg) 0 = false)
    by (apply Qeq_bool_false; exact NZ).
  rewrite B. discriminate.
Qed.





(** The same partition for what the engine itself produces: every run of
    the simulation with a nonzero initial balance, a nonempty trade log
    and at least one trial. *)
Lemma engine_probabilities_partition (cfg : Config) (rng : Rng)
    (trades : list Backtest.Trade) (n : nat) (res : SimulationResults) :
  ~ initial_balance cfg == 0 ->
  run_monte_carlo_simulation cfg rng trades (Some n) = Returned (Some res) ->
  exists b l,
    probability (breakeven (target_probabilities res)) = Fin b
    /\ probability (loss (target_probabilities res)) = Fin l
    /\ b + l == 100.
Proof.
  intros NZ. unfold run_monte_carlo_simulation.
  destruct trades as [| t rest]; [discriminate |].
  set (runs := simulation_loop cfg rng 0 (map Backtest.pnl (t :: rest)) 0 n).
  destruct (calculate_confidence_intervals runs _) as [cis | e] eqn:E;
    [| discriminate].
  intro H. injection H as <-. cbn [target_probabilities].
  apply partition_of_numbers.
  - intro R. rewrite R in E. discriminate E.
  - apply simulated_returns_are_numbers. exact NZ.
Qed.

End MonteCarloClaims.

(* ================================================================= *)
(** ** Calendar facts *)

Section Calendar.
Import Time.
Local Open Scope Z_scope.

Lemma compare_refl (a : Timestamp) : compare a a = Eq.
Proof.
  unfold compare. rewrite !Z.compare_refl. reflexivity.
Qed.

(** What the chronological order compares: year, month, day and time of
    day, in this order. *)
Lemma compare_cases (a b : Timestamp) :
  match compare a b with
  | Lt =>
      year a < year b
      \/ (year a = year b
          /\ (month a < month b
              \/ (month a = month b
                  /\ (day a < day b
                      \/ (day a = day b /\ nanos a < nanos b)))))
  | Eq => a = b
  | Gt =>
      year b < year a
      \/ (year b = year a
          /\ (month b < month a
              \/ (month b = month a
                  /\ (day b < day a
                      \/ (day b = day a /\ nanos b < nanos a)))))
  end.
Proof.
  destruct a as [ya ma da na], b as [yb mb db nb]. unfold compare.
  cbn [year month day nanos].
  destruct (Z.compare_spec ya yb) as [Y | Y | Y]; [| lia | lia].
  destruct (Z.compare_spec ma mb) as [M | M | M]; [| lia | lia].
  destruct (Z.compare_spec da db) as [D | D | D]; [| lia | lia].
  destruct (Z.compare_spec na nb) as [N | N | N]; [| lia | lia].
  congruence.
Qed.

Lemma leb_refl (a : Timestamp) : leb a a = true.
Proof.
  unfold leb. rewrite compare_refl. reflexivity.
Qed.

Lemma ltb_leb (a b : Timestamp) : ltb a b = true -> leb a b = true.
Proof.
  unfold ltb, leb. destruct (compare a b); congruence.
Qed.

Lemma leb_total (a b : Timestamp) : ltb a b = false -> leb b a = true.
Proof.
  unfold ltb, leb. pose proof (compare_cases a b) as H.
  pose proof (compare_cases b a) as K.
  destruct (compare a b); [| discriminate |]; intros _;
    destruct (compare b a); try reflexivity; subst; lia.
Qed.

Lemma leb_not_ltb (a b : Timestamp) : leb a b = true -> ltb b a = false.
Proof.
  unfold ltb, leb. pose proof (compare_cases a b) as H.
  pose proof (compare_cases b a) as K.
  destruct (compare a b); [| | discriminate]; intros _;
    destruct (compare b a); try reflexivity; subst; lia.
Qed.

Lemma leb_antisym (a b : Timestamp) :
  leb a b = true -> leb b a = true -> a = b.
Proof.
  unfold leb. pose proof (compare_cases a b) as H.
  pose proof (compare_cases b a) as K.
  destruct (compare a b); [intros; exact H | | discriminate].
  destruct (compare b a); [intros; symmetry; exact K | | discriminate].
  lia.
Qed.

Lemma leb_trans (a b c : Timestamp) :
  leb a b = true -> leb b c = true -> leb a c = true.
Proof.
  unfold leb. pose proof (compare_cases a b) as H.
  pose proof (compare_cases b c) as K.
  pose proof (compare_cases a c) as L.
  destruct (compare a b); [| | discriminate]; intros _;
    (destruct (compare b c); [| | discriminate]); intros _;
    destruct (compare a c); try reflexivity; subst; lia.
Qed.

Lemma month_index_add_months (t : Timestamp) (n : Z) :
  month_index (add_months t n) = month_index t + n.
Proof.
  unfold add_months, month_index at 1. cbn [year month].
  pose proof (Z_div_mod_eq_full (month_index t + n) 12). lia.
Qed.

Lemma month_add_months (t : Timestamp) (n : Z) :
  1 <= month (add_months t n) <= 12.
Proof.
  unfold add_months. cbn [month].
  pose proof (Z.mod_pos_bound (month_index t + n) 12). lia.
Qed.

(** Among timestamps with a month of 1..12 the month index orders first. *)
Lemma compare_lt_index (a b : Timestamp) :
  1 <= month a <= 12 -> 1 <= month b <= 12 ->
  month_index a < month_index b -> compare a b = Lt.
Proof.
  unfold month_index, compare. intros Ha Hb H.
  destruct (Z.compare_spec (year a) (year b)) as [E | L | G];
    [| reflexivity | lia].
  destruct (Z.compare_spec (month a) (month b)) as [E' | L' | G'];
    [lia | reflexivity | lia].
Qed.

Lemma compare_gt_index (a b : Timestamp) :
  1 <= month a <= 12 -> 1 <= month b <= 12 ->
  month_index b < month_index a -> compare a b = Gt.
Proof.
  unfold month_index, compare. intros Ha Hb H.
  destruct (Z.compare_spec (year a) (year b)) as [E | L | G];
    [| lia | reflexivity].
  destruct (Z.compare_spec (month a) (month b)) as [E' | L' | G'];
    [lia | lia | reflexivity].
Qed.

Lemma leb_same_month (a b : Timestamp) :
  year a = year b -> month a = month b -> day a <= day b ->
  nanos a = nanos b -> leb a b = true.
Proof.
  intros Y M D N. unfold leb, compare.
  rewrite Y, M, N, !Z.compare_refl.
  destruct (Z.compare_spec (day a) (day b)); [reflexivity .. | lia].
Qed.

(** The three loop tests of a 12-month window stepped by one month over a
    range of exactly 13 months. *)
Lemma first_window_fits (s : Timestamp) :
  leb (add_months s 12) (add_months s 13) = true.
Proof.
  unfold leb.
  rewrite (compare_lt_index (add_months s 12) (add_months s 13));
    [reflexivity | apply month_add_months .. |].
  rewrite !month_index_add_months. lia.
Qed.

Lemma second_window_fits (s : Timestamp) :
  leb (add_months (add_months s 1) 12) (add_months s 13) = true.
Proof.
  assert (I : month_index (add_months s 1) + 12 = month_index s + 13)
    by (rewrite month_index_add_months; lia).
  apply leb_same_month; unfold add_months at 1 3; cbn [year month day nanos];
    rewrite ?I; try reflexivity.
  unfold add_months. cbn [day]. lia.
Qed.

Lemma third_window_overshoots (s : Timestamp) :
  leb (add_months (add_months (add_months s 1) 1) 12) (add_months s 13)
  = false.
Proof.
  unfold leb.
  rewrite (compare_gt_index _ (add_months s 13));
    [reflexivity | apply month_add_months .. |].
  rewrite !month_index_add_months. lia.
Qed.

Lemma start_in_first_window (s : Timestamp) :
  1 <= month s <= 12 ->
  leb s s = true /\ ltb s (add_months s 12) = true.
Proof.
  intro V. unfold leb, ltb. rewrite compare_refl. split; [reflexivity |].
  rewrite (compare_lt_index s (add_months s 12));
    [reflexivity | exact V | apply month_add_months |].
  rewrite month_index_add_months. lia.
Qed.

End Calendar.

(* ================================================================= *)
(** ** The walk-forward engine *)

Section Sorting.
Import Num MonteCarlo EngineSpec.

Lemma In_insert_trade (x t : Backtest.Trade) (ts : list Backtest.Trade) :
  In x (insert_trade t ts) <-> x = t \/ In x ts.
Proof.
  induction ts as [| u rest IH]; simpl.
  - intuition congruence.
  - destruct (Time.ltb (Backtest.exit_time t) (Backtest.exit_time u));
      simpl; rewrite ?IH; intuition congruence.
Qed.

Lemma insert_trade_permutation (t : Backtest.Trade)
    (ts : list Backtest.Trade) :
  Permutation (t :: ts) (insert_trade t ts).
Proof.
  induction ts as [| u rest IH]; cbn [insert_trade]; [apply Permutation_refl |].
  destruct (Time.ltb (Backtest.exit_time t) (Backtest.exit_time u));
    [apply Permutation_refl |].
  eapply perm_trans; [apply perm_swap | apply perm_skip; exact IH].
Qed.

Lemma fold_insert_permutation (ts : list Backtest.Trade) :
  forall acc,
    Permutation (ts ++ acc) (fold_left (fun a t => insert_trade t a) ts acc).
Proof.
  induction ts as [| t rest IH]; intro acc; cbn [fold_left app];
    [apply Permutation_refl |].
  eapply perm_trans; [| apply IH].
  eapply perm_trans; [apply Permutation_middle |].
  apply Permutation_app_head. apply insert_trade_permutation.
Qed.

Lemma insert_trade_ascending (t : Backtest.Trade)
    (ts : list Backtest.Trade) :
  ascending ts -> ascending (insert_trade t ts).
Proof.
  unfold ascending. intro H.
  induction H as [| u rest F O IH]; cbn [insert_trade].
  - repeat constructor.
  - destruct (Time.ltb (Backtest.exit_time t) (Backtest.exit_time u)) eqn:B.
    + constructor; [| constructor; assumption].
      constructor; [apply ltb_leb; exact B |].
      eapply Forall_impl; [| exact F]. intros x X. cbv beta in X.
      exact (leb_trans _ _ _ (ltb_leb _ _ B) X).
    + constructor; [| exact IH].
      apply Forall_forall. intros x I. apply In_insert_trade in I.
      destruct I as [-> | I]; [apply leb_total; exact B |].
      rewrite Forall_forall in F. exact (F x I).
Qed.

Lemma fold_insert_ascending (ts : list Backtest.Trade) :
  forall acc,
    ascending acc ->
    ascending (fold_left (fun a t => insert_trade t a) ts acc).
Proof.
  induction ts as [| t rest IH]; intros acc A; cbn [fold_left];
    [exact A |].
  apply IH. apply insert_trade_ascending. exact A.
Qed.

(** Insertion from the left is a sorting function of the kind the
    engines are given. *)
Lemma insertion_sort_sorts : sorts insertion_sort.
Proof.
  intro ts. unfold insertion_sort. split.
  - pose proof (fold_insert_permutation ts []) as P.
    rewrite app_nil_r in P. exact P.
  - apply fold_insert_ascending. constructor.
Qed.

Lemma no_member {A : Type} (l : list A) :
  (forall x, ~ In x l) -> l = [].
Proof.
  destruct l as [| a l]; [reflexivity |].
  intro H. destruct (H a (or_introl eq_refl)).
Qed.

Lemma filter_ascending (f : Backtest.Trade -> bool)
    (ts : list Backtest.Trade) :
  ascending ts -> ascending (filter f ts).
Proof.
  unfold ascending. intro H.
  induction H as [| u rest F O IH]; cbn [filter]; [constructor |].
  destruct (f u); [| exact IH].
  constructor; [| exact IH].
  apply Forall_forall. intros x I. apply filter_In in I.
  rewrite Forall_forall in F. exact (F x (proj1 I)).
Qed.

Lemma ts_min_member (seed : Time.Timestamp) (ts : list Time.Timestamp) :
  In (ts_min seed ts) (seed :: ts).
Proof.
  unfold ts_min. revert seed.
  induction ts as [| x rest IH]; intro seed; simpl.
  - left. reflexivity.
  - destruct (IH (if Time.ltb x seed then x else seed)) as [E | I].
    + destruct (Time.ltb x seed); [right; left | left]; exact E.
    + right. right. exact I.
Qed.

Lemma ts_max_member (seed : Time.Timestamp) (ts : list Time.Timestamp) :
  In (ts_max seed ts) (seed :: ts).
Proof.
  unfold ts_max. revert seed.
  induction ts as [| x rest IH]; intro seed; simpl.
  - left. reflexivity.
  - destruct (IH (if Time.ltb seed x then x else seed)) as [E | I].
    + destruct (Time.ltb seed x); [right; left | left]; exact E.
    + right. right. exact I.
Qed.

(** [min()] is no later, and [max()] no earlier, than any value of the
    column. *)
Lemma ts_min_lower (ts : list Time.Timestamp) :
  forall seed x,
    In x (seed :: ts) -> Time.leb (ts_min seed ts) x = true.
Proof.
  unfold ts_min.
  induction ts as [| a rest IH]; intros seed x I; cbn [fold_left].
  - destruct I as [<- | []]. apply leb_refl.
  - set (m := if Time.ltb a seed then a else seed).
    assert (Ms : Time.leb m seed = true).
    { unfold m. destruct (Time.ltb a seed) eqn:B;
        [apply ltb_leb; exact B | apply leb_refl]. }
    assert (Ma : Time.leb m a = true).
    { unfold m. destruct (Time.ltb a seed) eqn:B;
        [apply leb_refl | apply leb_total; exact B]. }
    pose proof (IH m m (or_introl eq_refl)) as R.
    destruct I as [<- | [<- | I]].
    + exact (leb_trans _ _ _ R Ms).
    + exact (leb_trans _ _ _ R Ma).
    + apply IH. right. exact I.
Qed.

Lemma ts_max_upper (ts : list Time.Timestamp) :
  forall seed x,
    In x (seed :: ts) -> Time.leb x (ts_max seed ts) = true.
Proof.
  unfold ts_max.
  induction ts as [| a rest IH]; intros seed x I; cbn [fold_left].
  - destruct I as [<- | []]. apply leb_refl.
  - set (m := if Time.ltb seed a then a else seed).
    assert (Ms : Time.leb seed m = true).
    { unfold m. destruct (Time.ltb seed a) eqn:B;
        [apply ltb_leb; exact B | apply leb_refl]. }
    assert (Ma : Time.leb a m = true).
    { unfold m. destruct (Time.ltb seed a) eqn:B;
        [apply leb_refl | apply leb_total; exact B]. }
    pose proof (IH m m (or_introl eq_refl)) as R.
    destruct I as [<- | [<- | I]].
    + exact (leb_trans _ _ _ Ms R).
    + exact (leb_trans _ _ _ Ma R).
    + apply IH. right. exact I.
Qed.

(** [min()] and [max()] depend on the values of the column only, not on
    their order. *)
Lemma ts_min_of_same_values (s1 s2 : Time.Timestamp)
    (l1 l2 : list Time.Timestamp) :
  (forall x, In x (s1 :: l1) <-> In x (s2 :: l2)) ->
  ts_min s1 l1 = ts_min s2 l2.
Proof.
  intro H. apply leb_antisym.
  - apply ts_min_lower. apply H. apply ts_min_member.
  - apply ts_min_lower. apply H. apply ts_min_member.
Qed.

Lemma ts_max_of_same_values (s1 s2 : Time.Timestamp)
    (l1 l2 : list Time.Timestamp) :
  (forall x, In x (s1 :: l1) <-> In x (s2 :: l2)) ->
  ts_max s1 l1 = ts_max s2 l2.
Proof.
  intro H. apply leb_antisym.
  - apply ts_max_upper. apply H. apply ts_max_member.
  - apply ts_max_upper. apply H. apply ts_max_member.
Qed.

(** The start and the end of the range are exit times of trades of the
    log, the earliest and the latest one. *)
Lemma log_start_is_an_exit (t0 : Backtest.Trade)
    (rest : list Backtest.Trade) :
  exists t, In t (t0 :: rest)
            /\ Backtest.exit_time t = log_start t0 rest.
Proof.
  unfold log_start.
  destruct (ts_min_member (Backtest.exit_time t0)
              (map Backtest.exit_time rest)) as [E | I].
  - exists t0. split; [left; reflexivity | exact E].
  - apply in_map_iff in I. destruct I as [t [E I]].
    exists t. split; [right; exact I | exact E].
Qed.

Lemma log_end_is_an_exit (t0 : Backtest.Trade) (rest : list Backtest.Trade) :
  exists t, In t (t0 :: rest) /\ Backtest.exit_time t = log_end t0 rest.
Proof.
  unfold log_end.
  destruct (ts_max_member (Backtest.exit_time t0)
              (map Backtest.exit_time rest)) as [E | I].
  - exists t0. split; [left; reflexivity | exact E].
  - apply in_map_iff in I. destruct I as [t [E I]].
    exists t. split; [right; exact I | exact E].
Qed.

Lemma log_range (t0 : Backtest.Trade) (rest : list Backtest.Trade)
    (t : Backtest.Trade) :
  In t (t0 :: rest) ->
  Time.leb (log_start t0 rest) (Backtest.exit_time t) = true
  /\ Time.leb (Backtest.exit_time t) (log_end t0 rest) = true.
Proof.
  intro I.
  assert (J : In (Backtest.exit_time t)
                 (Backtest.exit_time t0 :: map Backtest.exit_time rest)).
  { change (In (Backtest.exit_time t)
               (map Backtest.exit_time (t0 :: rest))).
    apply in_map. exact I. }
  split; [apply ts_min_lower | apply ts_max_upper]; exact J.
Qed.

End Sorting.

Section WalkForwardClaims.
Import Num MonteCarlo EngineSpec.

Variable sort_values : list Backtest.Trade -> list Backtest.Trade.
Hypothesis sorted : sorts sort_values.

(** Sorting keeps the trades of the log. *)
Lemma In_sort_values (x : Backtest.Trade) (ts : list Backtest.Trade) :
  In x (sort_values ts) <-> In x ts.
Proof.
  destruct (sorted ts) as [P _]. split; intro I.
  - exact (Permutation_in x (Permutation_sym P) I).
  - exact (Permutation_in x P I).
Qed.

(** The range that the analysis reads off the sorted frame is the range
    of the log. *)
Lemma range_of_sorted (t0 : Backtest.Trade) (rest : list Backtest.Trade) :
  ts_min (Backtest.exit_time t0)
         (map Backtest.exit_time (sort_values (t0 :: rest)))
  = log_start t0 rest
  /\ ts_max (Backtest.exit_time t0)
            (map Backtest.exit_time (sort_values (t0 :: rest)))
     = log_end t0 rest.
Proof.
  assert (H : forall x,
             In x (Backtest.exit_time t0
                   :: map Backtest.exit_time (sort_values (t0 :: rest)))
             <-> In x (Backtest.exit_time t0
                       :: map Backtest.exit_time rest)).
  { intro x. change (Backtest.exit_time t0 :: map Backtest.exit_time rest)
      with (map Backtest.exit_time (t0 :: rest)).
    split.
    - intros [<- | I]; [left; reflexivity |].
      apply in_map_iff in I. destruct I as [t [<- I]].
      apply in_map. apply In_sort_values. exact I.
    - intro I. apply in_map_iff in I. destruct I as [t [<- I]].
      right. apply in_map. apply In_sort_values. exact I. }
  unfold log_start, log_end.
  split; [apply ts_min_of_same_values | apply ts_max_of_same_values];
    exact H.
Qed.

Lemma In_closing_in (a b : Time.Timestamp) (trades : list Backtest.Trade)
    (t : Backtest.Trade) :
  In t (closing_in sort_values a b trades)
  <-> In t trades
      /\ Time.leb a (Backtest.exit_time t) = true
      /\ Time.ltb (Backtest.exit_time t) b = true.
Proof.
  unfold closing_in, in_period.
  rewrite filter_In, In_sort_values, andb_true_iff. tauto.
Qed.

Lemma closing_in_ascending (a b : Time.Timestamp)
    (trades : list Backtest.Trade) :
  ascending (closing_in sort_values a b trades).
Proof.
  unfold closing_in. apply filter_ascending.
  exact (proj2 (sorted trades)).
Qed.

(** What one iteration reports: nothing for a period without trades,
    otherwise one entry built from the trades of the period. *)
Lemma period_entry_eq (cfg : Config) (trades : list Backtest.Trade)
    (p : Z) (c : Time.Timestamp) (n : nat) :
  period_entry cfg (sort_values trades) p c n =
  match calculate_period_metrics cfg
          (closing_in sort_values c (Time.add_months c p) trades) with
  | Some m =>
      [mkPeriodResult m n c (Time.add_months c p)
         (List.length
            (closing_in sort_values c (Time.add_months c p) trades))]
  | None => []
  end.
Proof.
  unfold period_entry, closing_in.
  destruct (filter _ (sort_values trades)); reflexivity.
Qed.

Lemma period_metrics_defined (cfg : Config) (ts : list Backtest.Trade) :
  ts <> [] -> exists m, calculate_period_metrics cfg ts = Some m.
Proof.
  destruct ts as [| t rest]; [contradiction |].
  intros _. eexists. reflexivity.
Qed.

(** The loop over a range of exactly 13 months, with any fuel of 3 or
    more: two iterations. *)
Lemma loop_over_thirteen_months (fuel : nat) (cfg : Config)
    (df : list Backtest.Trade) (s : Time.Timestamp) :
  (3 <= fuel)%nat ->
  walk_forward_loop fuel cfg df (Time.add_months s 13) 12 1 s 0
  = Some (period_entry cfg df 12 s 0
          ++ period_entry cfg df 12 (Time.add_months s 1) 1).
Proof.
  intro F.
  destruct fuel as [| [| [| fuel]]]; try lia.
  cbn [walk_forward_loop].
  rewrite first_window_fits, second_window_fits, third_window_overshoots.
  rewrite app_nil_r. reflexivity.
Qed.

Lemma walk_forward_thirteen (cfg : Config) (t0 : Backtest.Trade)
    (rest : list Backtest.Trade) (fuel : nat) :
  Forall (fun t => Time.valid (Backtest.exit_time t)) (t0 :: rest) ->
  log_end t0 rest = Time.add_months (log_start t0 rest) 13 ->
  (3 <= fuel)%nat ->
  let s := log_start t0 rest in
  let s1 := Time.add_months s 1 in
  let w0 := closing_in sort_values s (Time.add_months s 12) (t0 :: rest) in
  let w1 :=
    closing_in sort_values s1 (Time.add_months s1 12) (t0 :: rest) in
  exists m0 wf,
    run_walk_forward_analysis sort_values fuel cfg (t0 :: rest) 12 1
    = Some (Some wf)
    /\ calculate_period_metrics cfg w0 = Some m0
    /\ period_results wf
       = mkPeriodResult m0 0 s (Time.add_months s 12) (List.length w0)
         :: match calculate_period_metrics cfg w1 with
            | Some m1 =>
                [mkPeriodResult m1 1 s1 (Time.add_months s1 12)
                   (List.length w1)]
            | None => []
            end
    /\ total_periods wf = Some (List.length (period_results wf))
    /\ (calculate_period_metrics cfg w1 = None <-> w1 = []).
Proof.
  intros V Span F s s1 w0 w1.
  destruct (log_start_is_an_exit t0 rest) as [t [It Et]].
  assert (Vs : (1 <= Time.month s <= 12)%Z).
  { rewrite Forall_forall in V. specialize (V t It).
    unfold s. rewrite <- Et. exact (proj1 V). }
  assert (I0 : In t w0).
  { apply In_closing_in. split; [exact It |]. rewrite Et.
    exact (start_in_first_window s Vs). }
  assert (NE : w0 <> []) by (intro E; rewrite E in I0; destruct I0).
  destruct (period_metrics_defined cfg w0 NE) as [m0 M0].
  unfold run_walk_forward_analysis.
  destruct (range_of_sorted t0 rest) as [-> ->]. rewrite Span.
  fold s. rewrite (loop_over_thirteen_months fuel cfg _ s F).
  rewrite !period_entry_eq. fold s1 w0 w1. rewrite M0.
  eexists. eexists. split; [reflexivity |]. split; [reflexivity |].
  cbn [period_results total_periods app]. split; [reflexivity |].
  split; [reflexivity |].
  split.
  - destruct w1; [reflexivity | discriminate].
  - intros ->. reflexivity.
Qed.

(** C8, as the code has it.  For a log whose exit times are valid
    timestamps and whose last exit is 13 months after its first, and for
    every sorting function, a 12-month period stepped by one month is
    examined exactly twice: period 0 from the first exit and period 1 one
    month later fit in the range, a third period would end after the last
    exit.  Period 0 is always reported.  Period 1 is reported only when
    some trade closes inside it, which the last trade of the log never
    does: it closes at or after the end of period 1.  The trades of a
    reported period are the trades of the log whose exit time is in the
    half-open interval of the period, in ascending order of exit time,
    and its metrics are computed from them. *)
Theorem thirteen_month_walk_forward (cfg : Config) (t0 : Backtest.Trade)
    (rest : list Backtest.Trade) (fuel : nat) :
  Forall (fun t => Time.valid (Backtest.exit_time t)) (t0 :: rest) ->
  log_end t0 rest = Time.add_months (log_start t0 rest) 13 ->
  (3 <= fuel)%nat ->
  let s := log_start t0 rest in
  let s1 := Time.add_months s 1 in
  let s2 := Time.add_months s1 1 in
  let w0 := closing_in sort_values s (Time.add_months s 12) (t0 :: rest) in
  let w1 :=
    closing_in sort_values s1 (Time.add_months s1 12) (t0 :: rest) in
  (Time.leb (Time.add_months s 12) (log_end t0 rest) = true
   /\ Time.leb (Time.add_months s1 12) (log_end t0 rest) = true
   /\ Time.leb (Time.add_months s2 12) (log_end t0 rest) = false)
  /\ (exists m0 wf,
        run_walk_forward_analysis sort_values fuel cfg (t0 :: rest) 12 1
        = Some (Some wf)
        /\ calculate_period_metrics cfg w0 = Some m0
        /\ period_results wf
           = mkPeriodResult m0 0 s (Time.add_months s 12) (List.length w0)
             :: match calculate_period_metrics cfg w1 with
                | Some m1 =>
                    [mkPeriodResult m1 1 s1 (Time.add_months s1 12)
                       (List.length w1)]
                | None => []
                end
        /\ total_periods wf = Some (List.length (period_results wf))
        /\ (calculate_period_metrics cfg w1 = None <-> w1 = []))
  /\ (forall t, In t w0 <->
        In t (t0 :: rest)
        /\ Time.leb s (Backtest.exit_time t) = true
        /\ Time.ltb (Backtest.exit_time t) (Time.add_months s 12) = true)
  /\ (forall t, In t w1 <->
        In t (t0 :: rest)
        /\ Time.leb s1 (Backtest.exit_time t) = true
        /\ Time.ltb (Backtest.exit_time t) (Time.add_months s1 12) = true)
  /\ (forall t, Backtest.exit_time t = log_end t0 rest -> ~ In t w1)
  /\ ascending w0 /\ ascending w1.
Proof.
  intros V Span F s s1 s2 w0 w1.
  assert (W : Time.leb (Time.add_months s1 12) (log_end t0 rest) = true).
  { rewrite Span. apply second_window_fits. }
  split.
  { rewrite Span. split; [apply first_window_fits |].
    split; [apply second_window_fits | apply third_window_overshoots]. }
  split; [exact (walk_forward_thirteen cfg t0 rest fuel V Span F) |].
  split; [intro t; apply In_closing_in |].
  split; [intro t; apply In_closing_in |].
  split; [| split; apply closing_in_ascending].
  intros t E I. apply In_closing_in in I. destruct I as [_ [_ L]].
  rewrite E, (leb_not_ltb _ _ W) in L. discriminate L.
Qed.

End WalkForwardClaims.

Section WalkForwardInstances.
Import Num MonteCarlo EngineSpec.

Lemma thirteen_month_walk_forward_witness :
  sorts insertion_sort
  /\ Forall (fun t => Time.valid (Backtest.exit_time t)) dense_log
  /\ log_end (closed_at (Time.mkTs 2023 1 1 0) 50) (tl dense_log)
     = Time.add_months
         (log_start (closed_at (Time.mkTs 2023 1 1 0) 50) (tl dense_log)) 13
  /\ (3 <= 3)%nat
  /\ exists wf,
       run_walk_forward_analysis insertion_sort 3 default_config dense_log
                                 12 1
       = Some (Some wf)
       /\ total_periods wf = Some (List.length (period_results wf)).
Proof.
  assert (H1 : Forall (fun t => Time.valid (Backtest.exit_time t)) dense_log).
  { repeat constructor; simpl; lia. }
  assert (H2 : log_end (closed_at (Time.mkTs 2023 1 1 0) 50) (tl dense_log)
               = Time.add_months
                   (log_start (closed_at (Time.mkTs 2023 1 1 0) 50)
                              (tl dense_log)) 13)
    by (vm_compute; reflexivity).
  assert (H3 : (3 <= 3)%nat) by lia.
  split; [exact insertion_sort_sorts |].
  split; [exact H1 |]. split; [exact H2 |]. split; [exact H3 |].
  destruct (thirteen_month_walk_forward insertion_sort insertion_sort_sorts
              default_config
              (closed_at (Time.mkTs 2023 1 1 0) 50) (tl dense_log) 3
              H1 H2 H3) as [_ [[m0 [wf [R [_ [_ [T _]]]]]] _]].
  exists wf. split; [exact R | exact T].
Defined.

(** C8, as the specification words it, fails on a log of two trades that
    close exactly 13 months apart, whatever the sorting function: the
    second period holds no trade (the last trade closes at its open end)
    and is skipped, so one period is reported, not two. *)
Lemma sparse_log_has_one_window :
  sorts insertion_sort
  /\ Forall (fun t => Time.valid (Backtest.exit_time t)) sparse_log
  /\ log_end (closed_at (Time.mkTs 2023 1 1 0) 50) (tl sparse_log)
     = Time.add_months
         (log_start (closed_at (Time.mkTs 2023 1 1 0) 50) (tl sparse_log)) 13
  /\ forall sort_values, sorts sort_values ->
     forall fuel, (3 <= fuel)%nat ->
       exists wf,
         run_walk_forward_analysis sort_values fuel default_config
                                   sparse_log 12 1
         = Some (Some wf)
         /\ List.length (period_results wf) = 1%nat
         /\ total_periods wf = Some 1%nat
         /\ total_periods wf <> Some 2%nat.
Proof.
  assert (H1 : Forall (fun t => Time.valid (Backtest.exit_time t)) sparse_log).
  { repeat constructor; simpl; lia. }
  assert (H2 : log_end (closed_at (Time.mkTs 2023 1 1 0) 50) (tl sparse_log)
               = Time.add_months
                   (log_start (closed_at (Time.mkTs 2023 1 1 0) 50)
                              (tl sparse_log)) 13)
    by (vm_compute; reflexivity).
  split; [exact insertion_sort_sorts |].
  split; [exact H1 |]. split; [exact H2 |].
  intros sort_values S fuel F.
  destruct (walk_forward_thirteen sort_values S default_config
              (closed_at (Time.mkTs 2023 1 1 0) 50) (tl sparse_log) fuel
              H1 H2 F) as [m0 [wf [R [_ [P [T _]]]]]].
  exists wf. split; [exact R |].
  assert (E : closing_in sort_values
                (Time.add_months
                   (log_start (closed_at (Time.mkTs 2023 1 1 0) 50)
                              (tl sparse_log)) 1)
                (Time.add_months
                   (Time.add_months
                      (log_start (closed_at (Time.mkTs 2023 1 1 0) 50)
                                 (tl sparse_log)) 1) 12)
                (closed_at (Time.mkTs 2023 1 1 0) 50 :: tl sparse_log) = []).
  { apply no_member. intros t I.
    apply (In_closing_in sort_values S) in I.
    destruct I as [I [A B]].
    destruct I as [<- | [<- | []]]; vm_compute in A, B; discriminate. }
  rewrite E in P. cbn [calculate_period_metrics] in P.
  rewrite T, P. cbn [List.length]. repeat split. discriminate.
Qed.

End WalkForwardInstances.

(* ================================================================= *)
(** ** Position sizing and the profit or loss of a trade *)

Section Sizing.
Import Num Backtest ExtraSpec.

Lemma py_max_spec (a b : Q) : a <= py_max a b /\ b <= py_max a b.
Proof.
  unfold py_max. destruct (Qltb a b) eqn:E.
  - apply Qltb_lt in E. lra.
  - apply Qltb_ge in E. lra.
Qed.

Lemma py_min_spec (a b : Q) :
  py_min a b <= b /\ (py_min a b == a \/ py_min a b == b).
Proof.
  unfold py_min. destruct (Qltb b a) eqn:E.
  - split; [lra | right; reflexivity].
  - apply Qltb_ge in E. split; [lra | left; reflexivity].
Qed.

(** Rounding a number of [1, 100] to an integer stays in [1, 100]. *)
Lemma round_half_even_bounds (z : Q) :
  1 <= z <= 100 -> (1 <= round_half_even z <= 100)%Z.
Proof.
  intros [Lo Hi]. unfold round_half_even.
  pose proof (Qfloor_le z) as F1.
  assert (F2 : (1 <= Qfloor z)%Z).
  { rewrite <- (Qfloor_Z 1). apply Qfloor_resp_le. exact Lo. }
  assert (F3 : (Qfloor z <= 100)%Z).
  { rewrite <- (Qfloor_Z 100). apply Qfloor_resp_le. exact Hi. }
  assert (Up : 1 # 2 <= z - inject_Z (Qfloor z) -> (Qfloor z + 1 <= 100)%Z).
  { intro H. assert (L : inject_Z (Qfloor z) < inject_Z 100).
    { change (inject_Z 100) with 100. lra. }
    rewrite <- Zlt_Qlt in L. lia. }
  destruct (Qcompare_spec (z - inject_Z (Qfloor z)) (1 # 2)) as [E | L | G].
  - destruct (Z.even (Qfloor z)); [lia |].
    assert (H : 1 # 2 <= z - inject_Z (Qfloor z)) by lra.
    specialize (Up H). lia.
  - lia.
  - assert (H : 1 # 2 <= z - inject_Z (Qfloor z)) by lra.
    specialize (Up H). lia.
Qed.

Lemma round2_bounds (q : Q) :
  1 # 100 <= q <= 1 ->
  exists k : Z, (1 <= k <= 100)%Z /\ round2 q = inject_Z k / 100.
Proof.
  intros [Lo Hi]. exists (round_half_even (q * 100)).
  split; [| reflexivity].
  apply round_half_even_bounds. split; lra.
Qed.

Lemma hundredths_bounds (k : Z) :
  (1 <= k <= 100)%Z -> 1 # 100 <= inject_Z k / 100 <= 1.
Proof.
  intros [Lo Hi].
  rewrite Zle_Qle in Lo. rewrite Zle_Qle in Hi.
  change (inject_Z 1) with 1 in Lo. change (inject_Z 100) with 100 in Hi.
  split.
  - apply Qle_shift_div_l; lra.
  - apply Qle_shift_div_r; lra.
Qed.

Lemma position_size_some (cfg : Config) (balance price distance lot : Q) :
  calculate_position_size cfg balance price distance = Some lot ->
  exists k, (1 <= k <= 100)%Z /\ lot = inject_Z k / 100
            /\ 1 # 100 <= lot <= 1.
Proof.
  unfold calculate_position_size.
  destruct (Qeq_bool (distance * 100000) 0); [discriminate |].
  set (raw := balance * risk_per_trade cfg / 100 / (distance * 100000)).
  intro H. injection H as <-.
  assert (R : 1 # 100 <= py_min (py_max raw (1 # 100)) 1 <= 1).
  { destruct (py_max_spec raw (1 # 100)) as [_ M].
    destruct (py_min_spec (py_max raw (1 # 100)) 1) as [U [E | E]];
      split; lra. }
  destruct (round2_bounds _ R) as [k [K E]].
  exists k. split; [exact K |]. split; [exact E |].
  rewrite E. apply hundredths_bounds. exact K.
Qed.

Lemma position_size_defined (cfg : Config) (balance price distance : Q) :
  ~ distance == 0 ->
  exists lot, calculate_position_size cfg balance price distance = Some lot.
Proof.
  intro NZ. unfold calculate_position_size.
  assert (B : Qeq_bool (distance * 100000) 0 = false).
  { apply Qeq_bool_false. intro E. apply NZ.
    apply (Qmult_inj_r _ _ 100000); [discriminate | lra]. }
  rewrite B. eexists. reflexivity.
Qed.

(** X1. Position sizing: for a nonzero stop-loss distance the lot size is
    computed without raising, lies in [0.01, 1.0] whatever the balance and
    the risk, and is a whole number of hundredths; for a zero distance
    the division raises. *)
Theorem position_size_in_range (cfg : Config) (balance price distance : Q) :
  ~ distance == 0 ->
  exists lot k,
    calculate_position_size cfg balance price distance = Some lot
    /\ (1 <= k <= 100)%Z
    /\ lot = inject_Z k / 100
    /\ 1 # 100 <= lot <= 1.
Proof.
  intro NZ.
  destruct (position_size_defined cfg balance price distance NZ) as [lot E].
  destruct (position_size_some _ _ _ _ _ E) as [k [K [F R]]].
  exists lot, k. repeat split; try assumption; apply K || apply R.
Qed.

Lemma position_size_in_range_witness :
  ~ (8 # 10000) == 0
  /\ exists lot k,
       calculate_position_size default_config 10 (11 # 10) (8 # 10000)
       = Some lot
       /\ (1 <= k <= 100)%Z
       /\ lot = inject_Z k / 100
       /\ 1 # 100 <= lot <= 1.
Proof.
  assert (H : ~ (8 # 10000) == 0) by discriminate.
  split; [exact H |].
  exact (position_size_in_range default_config 10 (11 # 10) (8 # 10000) H).
Defined.

Lemma position_size_raises (cfg : Config) (balance price distance : Q) :
  distance == 0 -> calculate_position_size cfg balance price distance = None.
Proof.
  intro Z. unfold calculate_position_size.
  assert (B : Qeq_bool (distance * 100000) 0 = true).
  { apply Qeq_bool_iff. rewrite Z. reflexivity. }
  rewrite B. reflexivity.
Qed.

End Sizing.

(* ================================================================= *)
(** ** Invariants of the simulation loop *)

Section LoopInvariants.
Import Num Backtest SimSpec ExtraSpec.

Variable cfg : Config.
Variable symbol : string.

(** What one bar does to the state: an optional close, then an optional
    open; a close happens only below three consecutive losses. *)
Lemma step_cases (st st' : State) (row : Row) (ev : list Event) :
  step cfg symbol st row = Some (st', ev) ->
  exists st1,
    (st1 = st
     \/ exists p, position st = Some p
                  /\ should_close_position p row = true
                  /\ losses_gate st = false
                  /\ st1 = after_close st p row)
    /\ (st' = st1
        \/ exists d p, position st1 = None
                       /\ open_position cfg d row symbol (balance st1)
                          = Some p
                       /\ st' = set_position st1 p).
Proof.
  unfold step.
  destruct (daily_gate cfg st).
  { intro H. injection H as <- _. exists st. split; left; reflexivity. }
  destruct (losses_gate st) eqn:G.
  { intro H. injection H as <- _. exists st. split; left; reflexivity. }
  destruct (close_phase st row) as [st1 ev1] eqn:C.
  destruct (open_phase cfg symbol st1 row) as [[st2 ev2] |] eqn:O;
    [| discriminate].
  intro H. injection H as <- _. exists st1. split.
  - unfold close_phase in C. destruct (position st) as [p |] eqn:P.
    + destruct (should_close_position p row) eqn:S.
      * right. exists p. injection C as <- _.
        repeat split; assumption || reflexivity.
      * left. injection C as <- _. reflexivity.
    + left. injection C as <- _. reflexivity.
  - unfold open_phase in O. destruct (position st1) as [p |] eqn:P.
    + left. injection O as <- _. reflexivity.
    + destruct (Buy_Signal row =? 1)%Z.
      * destruct (open_position cfg BUY row symbol (balance st1))
          as [p |] eqn:E; [| discriminate].
        right. exists BUY, p. injection O as <- _. repeat split; assumption.
      * destruct (Sell_Signal row =? 1)%Z.
        -- destruct (open_position cfg SELL row symbol (balance st1))
             as [p |] eqn:E; [| discriminate].
           right. exists SELL, p. injection O as <- _.
           repeat split; assumption.
        -- left. injection O as <- _. reflexivity.
Qed.

(** A property of the state kept by every bar is kept by every run. *)
Lemma run_preserves (P : State -> Prop) :
  (forall st row st' ev,
      P st -> step cfg symbol st row = Some (st', ev) -> P st') ->
  forall df st st' evs,
    P st -> run cfg symbol st df = Some (st', evs) -> P st'.
Proof.
  intros Hstep df. induction df as [| row rest IH]; intros st st' evs H R.
  - simpl in R. injection R as <- _. exact H.
  - simpl in R.
    destruct (step cfg symbol st row) as [[st1 ev] |] eqn:S; [| discriminate].
    destruct (run cfg symbol st1 rest) as [[st2 evs2] |] eqn:R2;
      [| discriminate].
    injection R as <- _.
    exact (IH st1 st2 evs2 (Hstep _ _ _ _ H S) R2).
Qed.



Lemma streaks_snoc (log : list Trade) (t : Trade) :
  streaks (log ++ [t]) =
  (if losing t then S (fst (streaks log)) else O,
   Nat.max (snd (streaks log))
           (if losing t then S (fst (streaks log)) else O)).
Proof.
  unfold streaks. rewrite fold_left_app. cbn [fold_left].
  destruct (fold_left _ log (O, O)) as [cur best]. reflexivity.
Qed.

Lemma step_streak (st st' : State) (row : Row) (ev : list Event) :
  streak_counted st -> step cfg symbol st row = Some (st', ev) ->
  streak_counted st'.
Proof.
  intros [F [B C]] S. destruct (step_cases _ _ _ _ S) as [st1 [Cl O]].
  assert (S1 : streak_counted st1).
  { destruct Cl as [-> | [p [_ [_ [G ->]]]]]; [repeat split; assumption |].
    unfold losses_gate in G. apply Nat.leb_gt in G.
    unfold streak_counted, after_close.
    cbn [trades consecutive_losses]. rewrite streaks_snoc, F.
    unfold losing. cbn [fst snd].
    destruct (Qltb (pnl (close_position p row (balance st))) 0);
      repeat split; lia. }
  destruct O as [-> | [d [p [_ [_ ->]]]]]; exact S1.
Qed.

Hypothesis stop_positive : 0 < stop_loss_pips cfg.
Hypothesis target_positive : 0 < take_profit_pips cfg.








End LoopInvariants.

(* ================================================================= *)
(** ** What a run of the simulator guarantees *)

Section RunGuarantees.
Import Num Backtest SimSpec ExtraSpec.

Lemma run_extends (cfg : Config) (symbol : string) (df : list Row) :
  forall st st' evs,
    run cfg symbol st df = Some (st', evs) ->
    exists added, trades st' = trades st ++ added
                  /\ (List.length added <= List.length df)%nat.
Proof.
  induction df as [| row rest IH]; intros st st' evs R.
  - simpl in R. injection R as <- _. exists []. rewrite app_nil_r.
    split; [reflexivity | simpl; lia].
  - simpl in R.
    destruct (step cfg symbol st row) as [[st1 ev] |] eqn:S; [| discriminate].
    destruct (run cfg symbol st1 rest) as [[st2 evs2] |] eqn:R2;
      [| discriminate].
    injection R as <- _.
    destruct (IH _ _ _ R2) as [added [E L]].
    destruct (step_cases _ _ _ _ _ _ S) as [st0 [C O]].
    assert (T1 : trades st1 = trades st0).
    { destruct O as [-> | [d [p [_ [_ ->]]]]]; reflexivity. }
    destruct C as [-> | [p [_ [_ [_ ->]]]]].
    + exists added. rewrite E, T1. split; [reflexivity | simpl; lia].
    + exists (close_position p row (balance st) :: added).
      rewrite E, T1. unfold after_close. cbn [trades].
      rewrite <- app_assoc. split; [reflexivity | simpl; lia].
Qed.







(** X4. Losing streaks: at the end of every run the consecutive-loss
    counter is the length of the losing streak the trade log ends on, it
    is at most 3, and the longest losing streak anywhere in the log is at
    most 3. *)
Theorem losing_streaks_are_capped (cfg : Config) (symbol : string)
    (df : list Row) (st : State) (evs : list (list Event)) :
  run cfg symbol (init cfg) df = Some (st, evs) ->
  fst (streaks (trades st)) = consecutive_losses st
  /\ (snd (streaks (trades st)) <= 3)%nat
  /\ (consecutive_losses st <= 3)%nat.
Proof.
  intro R.
  assert (I : streak_counted (init cfg)).
  { unfold streak_counted, init. cbn. repeat split; lia. }
  exact (run_preserves cfg symbol streak_counted (fun a r b e => step_streak cfg symbol a b r e)
           df _ _ _ I R).
Qed.

Lemma losing_streaks_are_capped_witness :
  run big_account "EURUSD=X" (init big_account) three_losses
  = Some (fst after_three_losses, snd after_three_losses)
  /\ fst (streaks (trades (fst after_three_losses)))
     = consecutive_losses (fst after_three_losses)
  /\ (snd (streaks (trades (fst after_three_losses))) <= 3)%nat
  /\ (consecutive_losses (fst after_three_losses) <= 3)%nat.
Proof.
  assert (H : run big_account "EURUSD=X" (init big_account) three_losses
              = Some (fst after_three_losses, snd after_three_losses))
    by (vm_compute; reflexivity).
  split; [exact H |].
  exact (losing_streaks_are_capped big_account "EURUSD=X" three_losses
           _ _ H).
Defined.

(** X5. The trade log is append-only: the log of a run over [df1 ++ df2]
    is the log of the run over [df1] followed by at most one new trade
    per bar of [df2]. *)
Theorem log_is_append_only (cfg : Config) (symbol : string)
    (df1 df2 : list Row) (log1 log2 : list Trade) :
  simulate_trades cfg df1 symbol = Some log1 ->
  simulate_trades cfg (df1 ++ df2) symbol = Some log2 ->
  exists added, log2 = log1 ++ added
                /\ (List.length added <= List.length df2)%nat.
Proof.
  unfold simulate_trades. rewrite run_app.
  destruct (run cfg symbol (init cfg) df1) as [[st1 e1] |]; [| discriminate].
  intro H1. injection H1 as <-.
  destruct (run cfg symbol st1 df2) as [[st2 e2] |] eqn:R2; [| discriminate].
  intro H2. injection H2 as <-.
  exact (run_extends cfg symbol df2 _ _ _ R2).
Qed.

Lemma log_is_append_only_witness :
  simulate_trades default_config day1 "EURUSD=X"
  = Some (trades (fst after_day1))
  /\ simulate_trades default_config (day1 ++ day2) "EURUSD=X"
     = Some (trades (fst after_day1))
  /\ exists added,
       trades (fst after_day1) = trades (fst after_day1) ++ added
       /\ (List.length added <= List.length day2)%nat.
Proof.
  assert (H1 : simulate_trades default_config day1 "EURUSD=X"
               = Some (trades (fst after_day1)))
    by (vm_compute; reflexivity).
  assert (H2 : simulate_trades default_config (day1 ++ day2) "EURUSD=X"
               = Some (trades (fst after_day1)))
    by (vm_compute; reflexivity).
  split; [exact H1 |]. split; [exact H2 |].
  exact (log_is_append_only default_config "EURUSD=X" day1 day2 _ _ H1 H2).
Defined.

Lemma bar_at_app (pre more : list Row) (i : nat) (t : Time.Timestamp) :
  bar_at pre i t -> bar_at (pre ++ more) i t.
Proof.
  intros [row [N E]]. exists row. split; [| exact E].
  rewrite nth_error_app1; [exact N |].
  apply nth_error_Some. rewrite N. discriminate.
Qed.

Lemma entered_app (pre more : list Row) (t : Trade) :
  entered_before_exit pre t -> entered_before_exit (pre ++ more) t.
Proof.
  intros [i [j [L [A B]]]]. exists i, j.
  split; [exact L |]. split; apply bar_at_app; assumption.
Qed.

Lemma bar_at_last (pre : list Row) (row : Row) :
  bar_at (pre ++ [row]) (List.length pre) (name row).
Proof.
  exists row. split; [| reflexivity].
  rewrite nth_error_app2 by lia. rewrite Nat.sub_diag. reflexivity.
Qed.

Lemma bar_at_lt (pre : list Row) (i : nat) (t : Time.Timestamp) :
  bar_at pre i t -> (i < List.length pre)%nat.
Proof.
  intros [row [N _]]. apply nth_error_Some. rewrite N. discriminate.
Qed.

Lemma open_position_entry (cfg : Config) (symbol : string) (d : Direction)
    (row : Row) (bal : Q) (p : Position) :
  open_position cfg d row symbol bal = Some p -> p_entry_time p = name row.
Proof.
  unfold open_position.
  destruct (calculate_position_size cfg bal (Close row)
              (stop_loss_pips cfg * pip_value symbol));
    destruct d; intro H; try discriminate; injection H as <-; reflexivity.
Qed.

Lemma step_timed (cfg : Config) (symbol : string) (pre : list Row)
    (st st' : State) (row : Row) (ev : list Event) :
  timed pre st -> step cfg symbol st row = Some (st', ev) ->
  timed (pre ++ [row]) st'.
Proof.
  intros [Pos Log] S. destruct (step_cases _ _ _ _ _ _ S) as [st1 [C O]].
  assert (T1 : timed (pre ++ [row]) st1).
  { destruct C as [-> | [p [P [_ [_ ->]]]]].
    - split.
      + intros p H. destruct (Pos p H) as [i B]. exists i.
        apply bar_at_app. exact B.
      + eapply Forall_impl; [| exact Log]. intros t. apply entered_app.
    - unfold timed, after_close. cbn [position trades]. split.
      + intros q H. discriminate H.
      + apply Forall_app. split.
        * eapply Forall_impl; [| exact Log]. intros t. apply entered_app.
        * constructor; [| constructor].
          destruct (Pos p P) as [i B].
          exists i, (List.length pre). split; [exact (bar_at_lt _ _ _ B) |].
          unfold close_position. cbn [entry_time exit_time].
          split; [apply bar_at_app; exact B | apply bar_at_last]. }
  destruct O as [-> | [d [p [_ [E ->]]]]]; [exact T1 |].
  destruct T1 as [_ Log1]. unfold timed, set_position.
  cbn [position trades]. split; [| exact Log1].
  intros q H. injection H as <-. exists (List.length pre).
  rewrite (open_position_entry _ _ _ _ _ _ E). apply bar_at_last.
Qed.

Lemma run_timed (cfg : Config) (symbol : string) (df : list Row) :
  forall pre st st' evs,
    timed pre st -> run cfg symbol st df = Some (st', evs) ->
    timed (pre ++ df) st'.
Proof.
  induction df as [| row rest IH]; intros pre st st' evs T R.
  - simpl in R. injection R as <- _. rewrite app_nil_r. exact T.
  - simpl in R.
    destruct (step cfg symbol st row) as [[st1 ev] |] eqn:S; [| discriminate].
    destruct (run cfg symbol st1 rest) as [[st2 evs2] |] eqn:R2;
      [| discriminate].
    injection R as <- _.
    replace (pre ++ row :: rest) with ((pre ++ [row]) ++ rest)
      by (rewrite <- app_assoc; reflexivity).
    exact (IH _ _ _ _ (step_timed _ _ _ _ _ _ _ T S) R2).
Qed.

(** X6. Every trade of the log was entered on one bar of the frame and
    closed on a strictly later bar: no position is opened and closed on
    the same bar, and the entry and exit times of a trade are the
    timestamps of these two bars. *)
Theorem trades_close_after_they_open (cfg : Config) (symbol : string)
    (df : list Row) (log : list Trade) :
  simulate_trades cfg df symbol = Some log ->
  Forall (entered_before_exit df) log.
Proof.
  unfold simulate_trades.
  destruct (run cfg symbol (init cfg) df) as [[st evs] |] eqn:R;
    [| discriminate].
  intro H. injection H as <-.
  assert (I : timed [] (init cfg)).
  { split; [intros p H; discriminate H | constructor]. }
  exact (proj2 (run_timed cfg symbol df [] _ _ _ I R)).
Qed.

Lemma trades_close_after_they_open_witness :
  simulate_trades default_config day1 "EURUSD=X"
  = Some (trades (fst after_day1))
  /\ Forall (entered_before_exit day1) (trades (fst after_day1)).
Proof.
  assert (H : simulate_trades default_config day1 "EURUSD=X"
              = Some (trades (fst after_day1)))
    by (vm_compute; reflexivity).
  split; [exact H |].
  exact (trades_close_after_they_open default_config "EURUSD=X" day1 _ H).
Defined.

End RunGuarantees.

(* ================================================================= *)
(** ** Signals and moving averages *)

Section SignalFacts.
Import Num Backtest Indicators ExtraSpec.

Lemma flt_asym (x y : fnum) : flt x y = true -> flt y x = false.
Proof.
  destruct x as [a | | |], y as [b | | |]; simpl; try discriminate;
    try reflexivity.
  intro H. apply Qltb_lt in H. apply Qltb_ge. lra.
Qed.

Lemma conditions_exclude (r : IndicatorRow) :
  buy_condition r = true -> sell_condition r = false.
Proof.
  unfold buy_condition, sell_condition, fgt. intro B.
  repeat (apply andb_true_iff in B; destruct B as [B ?]).
  rewrite (flt_asym _ _ B). reflexivity.
Qed.

(** X7. [generate_signals] keeps one row per bar, with the bar's
    timestamp and close; each signal is 0 or 1, and the buy and the sell
    signal are never both 1 on the same bar. *)
Theorem signals_are_exclusive (df : list IndicatorRow) :
  List.length (generate_signals df) = List.length df
  /\ map name (generate_signals df) = map i_name df
  /\ map Close (generate_signals df) = map i_Close df
  /\ Forall (fun row =>
               (Buy_Signal row = 0 \/ Buy_Signal row = 1)%Z
               /\ (Sell_Signal row = 0 \/ Sell_Signal row = 1)%Z
               /\ ~ (Buy_Signal row = 1 /\ Sell_Signal row = 1)%Z)
            (generate_signals df).
Proof.
  unfold generate_signals.
  split; [apply length_map |].
  split; [rewrite map_map; reflexivity |].
  split; [rewrite map_map; reflexivity |].
  apply Forall_map, Forall_forall. intros r _. cbn [Buy_Signal Sell_Signal].
  destruct (buy_condition r) eqn:B.
  - rewrite (conditions_exclude r B).
    split; [right; reflexivity |]. split; [left; reflexivity |].
    intros [_ H]. discriminate H.
  - split; [left; reflexivity |].
    split; [destruct (sell_condition r); [right | left]; reflexivity |].
    intros [H _]. discriminate H.
Qed.

Lemma flt_nan_l (y : fnum) : flt NaN y = false.
Proof. reflexivity. Qed.

Lemma flt_nan_r (x : fnum) : flt x NaN = false.
Proof. destruct x; reflexivity. Qed.

(** X8. A bar with an undefined (NaN) fast average, slow average,
    Bollinger position or RSI triggers neither signal; this covers the
    warm-up bars of the RSI. *)
Theorem undefined_indicators_give_no_signal (r : IndicatorRow) :
  is_nan (i_EMA_20 r) || is_nan (i_EMA_200 r)
  || is_nan (i_BB_Position r) || is_nan (i_RSI r) = true ->
  buy_condition r = false /\ sell_condition r = false.
Proof.
  intro H. unfold buy_condition, sell_condition, fgt.
  destruct (i_EMA_20 r) as [a | | |] eqn:E1;
    try (rewrite ?flt_nan_l, ?flt_nan_r; simpl;
         rewrite ?andb_false_r; split; reflexivity);
    destruct (i_EMA_200 r) as [b | | |] eqn:E2;
    try (rewrite ?flt_nan_l, ?flt_nan_r; simpl;
         rewrite ?andb_false_r; split; reflexivity);
    destruct (i_BB_Position r) as [c | | |] eqn:E3;
    try (rewrite ?flt_nan_l, ?flt_nan_r; simpl;
         rewrite ?andb_false_r; split; reflexivity);
    destruct (i_RSI r) as [d | | |] eqn:E4;
    try (rewrite ?flt_nan_l, ?flt_nan_r; simpl;
         rewrite ?andb_false_r; split; reflexivity);
    simpl in H; discriminate H.
Qed.

Lemma undefined_indicators_give_no_signal_witness :
  is_nan (i_EMA_20 (mkIndicatorRow (Time.mkTs 2024 1 1 0) 1 (Fin 1)
                      (Fin 1) (Fin (1 # 2)) (MetricsSpec.rsi_at [1; 2] 1)))
  || is_nan (Fin 1) || is_nan (Fin (1 # 2))
  || is_nan (MetricsSpec.rsi_at [1; 2] 1) = true
  /\ buy_condition (mkIndicatorRow (Time.mkTs 2024 1 1 0) 1 (Fin 1)
                      (Fin 1) (Fin (1 # 2)) (MetricsSpec.rsi_at [1; 2] 1))
     = false.
Proof.
  split.
  - vm_compute. reflexivity.
  - apply (undefined_indicators_give_no_signal
             (mkIndicatorRow (Time.mkTs 2024 1 1 0) 1 (Fin 1)
                (Fin 1) (Fin (1 # 2)) (MetricsSpec.rsi_at [1; 2] 1))).
    vm_compute. reflexivity.
Defined.

(** A frame without signals. *)
Lemma run_without_signals (cfg : Config) (symbol : string) (df : list Row) :
  Forall (fun row => Buy_Signal row <> 1%Z /\ Sell_Signal row <> 1%Z) df ->
  run cfg symbol (init cfg) df = Some (init cfg, SimSpec.idle (List.length df)).
Proof.
  induction 1 as [| row rest [B S] _ IH]; [reflexivity |].
  cbn [run List.length SimSpec.idle repeat].
  assert (E : step cfg symbol (init cfg) row = Some (init cfg, [])).
  { unfold step. destruct (daily_gate cfg (init cfg)); [reflexivity |].
    cbn [losses_gate init consecutive_losses Nat.leb].
    unfold close_phase, open_phase. cbn [position init].
    apply Z.eqb_neq in B. apply Z.eqb_neq in S. rewrite B, S.
    reflexivity. }
  rewrite E. unfold SimSpec.idle in IH. rewrite IH. reflexivity.
Qed.

(** X9. A frame in which no bar carries a signal (the empty frame, or for
    instance a frame of undefined indicators) produces no trade, with any
    configuration: the simulation returns an empty log, even with a zero
    stop-loss distance, since no position is ever sized. *)
Theorem no_signal_no_trade (cfg : Config) (symbol : string)
    (df : list Row) :
  Forall (fun row => Buy_Signal row <> 1%Z /\ Sell_Signal row <> 1%Z) df ->
  simulate_trades cfg df symbol = Some [].
Proof.
  intro H. unfold simulate_trades.
  rewrite (run_without_signals cfg symbol df H). reflexivity.
Qed.

Lemma no_signal_no_trade_witness :
  Forall (fun row => Buy_Signal row <> 1%Z /\ Sell_Signal row <> 1%Z)
         (generate_signals
            [mkIndicatorRow (Time.mkTs 2024 1 1 0) 1 NaN NaN NaN NaN])
  /\ simulate_trades default_config
       (generate_signals
          [mkIndicatorRow (Time.mkTs 2024 1 1 0) 1 NaN NaN NaN NaN])
       "EURUSD=X" = Some [].
Proof.
  assert (H : Forall (fun row => Buy_Signal row <> 1%Z
                                 /\ Sell_Signal row <> 1%Z)
                (generate_signals
                   [mkIndicatorRow (Time.mkTs 2024 1 1 0) 1 NaN NaN NaN NaN])).
  { repeat constructor; discriminate. }
  split; [exact H |].
  exact (no_signal_no_trade default_config "EURUSD=X" _ H).
Defined.

End SignalFacts.

Section AverageFacts.
Import Num Backtest Indicators ExtraSpec.

Lemma length_ewm_from (alpha : Q) (xs : list Q) :
  forall w ow, List.length (ewm_from alpha w ow xs) = List.length xs.
Proof.
  induction xs as [| x rest IH]; intros w ow; simpl;
    [reflexivity | rewrite IH; reflexivity].
Qed.

(** A weighted mean of two numbers of an interval stays in it. *)
Lemma convex_step (lo hi w cur a : Q) :
  0 <= a -> lo <= w <= hi -> lo <= cur <= hi ->
  lo <= (a * w + 1 * cur) / (a + 1) <= hi.
Proof.
  intros A [W1 W2] [C1 C2].
  assert (P : 0 < a + 1) by lra.
  assert (M1 : lo * a <= w * a) by (apply Qmult_le_compat_r; assumption).
  assert (M2 : w * a <= hi * a) by (apply Qmult_le_compat_r; assumption).
  split.
  - apply Qle_shift_div_l; [exact P |].
    assert (E : lo * (a + 1) == lo * a + lo) by ring.
    assert (F : a * w + 1 * cur == w * a + cur) by ring.
    rewrite E, F. lra.
  - apply Qle_shift_div_r; [exact P |].
    assert (E : hi * (a + 1) == hi * a + hi) by ring.
    assert (F : a * w + 1 * cur == w * a + cur) by ring.
    rewrite E, F. lra.
Qed.

Lemma ewm_from_within (alpha lo hi : Q) (xs : list Q) :
  0 <= 1 - alpha ->
  forall w ow,
    0 <= ow -> lo <= w <= hi -> within lo hi xs ->
    within lo hi (ewm_from alpha w ow xs).
Proof.
  intro A. induction xs as [| x rest IH]; intros w ow O W X.
  - constructor.
  - inversion X as [| ? ? Hx Hrest]; subst. cbn [ewm_from].
    assert (O' : 0 <= ow * (1 - alpha)) by (apply Qmult_le_0_compat; assumption).
    assert (N : lo <= (if Qeq_bool w x then w
                       else (ow * (1 - alpha) * w + 1 * x)
                            / (ow * (1 - alpha) + 1)) <= hi).
    { destruct (Qeq_bool w x); [exact W |].
      apply convex_step; assumption. }
    constructor; [exact N |].
    apply IH; [lra | exact N | exact Hrest].
Qed.

Lemma ewm_mean_within (span lo hi : Q) (xs : list Q) :
  1 <= span -> within lo hi xs -> within lo hi (ewm_mean span xs).
Proof.
  intros S X. destruct xs as [| x rest]; [constructor |].
  inversion X as [| ? ? Hx Hrest]; subst. cbn [ewm_mean].
  constructor; [exact Hx |].
  apply ewm_from_within; try assumption; [| lra].
  unfold ewm_alpha.
  assert (D : 2 / (span + 1) <= 1) by (apply Qle_shift_div_r; lra).
  lra.
Qed.

(** X10. The moving averages stay inside the range of the prices: if every
    close lies in [lo, hi], so does every value of [EMA_20] and of
    [EMA_200]; both columns have one value per bar, defined from the
    first bar on, and start at the first close. *)
Theorem averages_stay_in_range (closes : list Q) (lo hi : Q) :
  within lo hi closes ->
  within lo hi (EMA_20 closes)
  /\ within lo hi (EMA_200 closes)
  /\ List.length (EMA_20 closes) = List.length closes
  /\ List.length (EMA_200 closes) = List.length closes
  /\ hd_error (EMA_20 closes) = hd_error closes
  /\ hd_error (EMA_200 closes) = hd_error closes.
Proof.
  intro X. unfold EMA_20, EMA_200.
  split; [apply ewm_mean_within; [discriminate | exact X] |].
  split; [apply ewm_mean_within; [discriminate | exact X] |].
  destruct closes as [| x rest]; cbn [ewm_mean List.length hd_error];
    rewrite ?length_ewm_from; repeat split.
Qed.

Lemma averages_stay_in_range_witness :
  within 1 3 [1; 2; 3; 2]
  /\ within 1 3 (EMA_20 [1; 2; 3; 2]).
Proof.
  assert (H : within 1 3 [1; 2; 3; 2]).
  { repeat constructor; discriminate. }
  split; [exact H |].
  exact (proj1 (averages_stay_in_range [1; 2; 3; 2] 1 3 H)).
Defined.

Lemma ewm_from_constant (alpha c : Q) (n : nat) :
  forall ow, ewm_from alpha c ow (repeat c n) = repeat c n.
Proof.
  induction n as [| n IH]; intro ow; [reflexivity |].
  cbn [repeat ewm_from]. rewrite Qeq_bool_refl, IH. reflexivity.
Qed.

(** X11. On a flat price series both moving averages equal the price on
    every bar, exactly, and then no bar can trigger a signal, whatever
    its Bollinger position and RSI: the strict comparisons of the close
    with its averages fail. *)
Theorem flat_prices_give_flat_averages (c : Q) (n : nat) :
  EMA_20 (repeat c n) = repeat c n
  /\ EMA_200 (repeat c n) = repeat c n
  /\ forall r, i_EMA_20 r = Fin (i_Close r) ->
               buy_condition r = false /\ sell_condition r = false.
Proof.
  unfold EMA_20, EMA_200.
  split; [| split].
  - destruct n as [| n]; [reflexivity |].
    cbn [repeat ewm_mean]. rewrite ewm_from_constant. reflexivity.
  - destruct n as [| n]; [reflexivity |].
    cbn [repeat ewm_mean]. rewrite ewm_from_constant. reflexivity.
  - intros r E. unfold buy_condition, sell_condition, fgt. rewrite E.
    assert (F : flt (Fin (i_Close r)) (Fin (i_Close r)) = false).
    { simpl. apply Qltb_ge. lra. }
    rewrite F. split; reflexivity.
Qed.

Lemma length_window {A : Type} (w i : nat) (xs : list A) :
  (w <= i + 1)%nat -> (i < List.length xs)%nat ->
  List.length (window w i xs) = w.
Proof.
  intros L H. unfold window. rewrite length_firstn, length_skipn. lia.
Qed.

Lemma In_window {A : Type} (w i : nat) (xs : list A) (x : A) :
  In x (window w i xs) -> In x xs.
Proof.
  unfold window. intro H.
  assert (S : In x (skipn (i + 1 - w) xs)).
  { rewrite <- (firstn_skipn w (skipn (i + 1 - w) xs)).
    apply in_or_app. left. exact H. }
  rewrite <- (firstn_skipn (i + 1 - w) xs). apply in_or_app. right. exact S.
Qed.

Lemma Qsum_bounds (lo hi : Q) (xs : list Q) :
  within lo hi xs ->
  Qnat (List.length xs) * lo <= Qsum xs <= Qnat (List.length xs) * hi.
Proof.
  induction 1 as [| x rest Hx _ IH].
  - unfold Qsum, Qnat. cbn [List.length fold_left Z.of_nat].
    change (inject_Z 0) with 0. lra.
  - rewrite Qsum_cons. cbn [List.length]. unfold Qnat in *.
    rewrite Nat2Z.inj_succ, <- Z.add_1_r, inject_Z_plus.
    change (inject_Z 1) with 1.
    assert (E1 : (inject_Z (Z.of_nat (List.length rest)) + 1) * lo
                 == inject_Z (Z.of_nat (List.length rest)) * lo + lo) by ring.
    assert (E2 : (inject_Z (Z.of_nat (List.length rest)) + 1) * hi
                 == inject_Z (Z.of_nat (List.length rest)) * hi + hi) by ring.
    rewrite E1, E2. lra.
Qed.

(** X12. The Bollinger middle band is undefined (NaN) on the first 19
    bars, and from bar 19 on it is a number inside the range of the
    prices. *)
Theorem middle_band_is_a_mean (closes : list Q) (lo hi : Q) (i : nat) :
  within lo hi closes ->
  (i < List.length closes)%nat ->
  List.length (BB_Middle closes) = List.length closes
  /\ ((i < 19)%nat -> nth i (BB_Middle closes) NaN = NaN)
  /\ ((19 <= i)%nat ->
      exists m, nth i (BB_Middle closes) NaN = Fin m /\ lo <= m <= hi).
Proof.
  intros X H. unfold BB_Middle.
  split; [apply length_rolling_mean |].
  rewrite (nth_rolling_mean 20 closes i H). unfold rolling_mean_at.
  split.
  - intro L. assert (W : (i + 1 <? 20)%nat = true) by (apply Nat.ltb_lt; lia).
    rewrite W. reflexivity.
  - intro L. assert (W : (i + 1 <? 20)%nat = false) by (apply Nat.ltb_ge; lia).
    rewrite W. eexists. split; [reflexivity |].
    assert (WX : within lo hi (window 20 i closes)).
    { apply Forall_forall. intros x I. unfold within in X.
      rewrite Forall_forall in X. exact (X x (In_window _ _ _ _ I)). }
    pose proof (Qsum_bounds lo hi _ WX) as B.
    rewrite (length_window 20 i closes) in B by lia.
    change (Qnat 20) with 20 in *.
    split; [apply Qle_shift_div_l | apply Qle_shift_div_r]; lra.
Qed.

Lemma middle_band_is_a_mean_witness :
  within 1 1 (repeat 1 20)
  /\ (19 < List.length (repeat 1 20))%nat
  /\ List.length (BB_Middle (repeat 1 20)) = List.length (repeat 1 20).
Proof.
  assert (H1 : within 1 1 (repeat 1 20)).
  { repeat constructor; discriminate. }
  assert (H2 : (19 < List.length (repeat 1 20))%nat) by (simpl; lia).
  split; [exact H1 |]. split; [exact H2 |].
  exact (proj1 (middle_band_is_a_mean (repeat 1 20) 1 1 19 H1 H2)).
Defined.

End AverageFacts.

(* ================================================================= *)
(** ** More on the metrics calculator *)

Section MetricsFacts.
Import Num Backtest ExtraSpec.


Lemma winners_sum_nonneg (xs : list Q) :
  0 <= Qsum (filter (fun x => Qltb 0 x) xs).
Proof.
  apply Qsum_nonneg, Forall_forall. intros x I.
  apply filter_In in I. destruct I as [_ P]. apply Qltb_lt in P. lra.
Qed.

Lemma losers_sum_nonpos (xs : list Q) :
  Qsum (filter (fun x => Qltb x 0) xs) <= 0.
Proof.
  induction xs as [| x rest IH]; [unfold Qsum; simpl; lra |].
  cbn [filter]. destruct (Qltb x 0) eqn:N; [| exact IH].
  rewrite Qsum_cons. apply Qltb_lt in N. lra.
Qed.

Lemma gross_loss_eq (xs : list Q) :
  gross_loss xs == - Qsum (filter (fun x => Qltb x 0) xs).
Proof.
  unfold gross_loss. apply Qabs_neg, losers_sum_nonpos.
Qed.


Lemma counts_by_sign (xs : list Q) :
  (List.length (filter (fun x => Qltb 0 x) xs)
   + List.length (filter (fun x => Qltb x 0) xs) <= List.length xs)%nat
  /\ (Forall (fun x => ~ x == 0) xs ->
      (List.length (filter (fun x => Qltb 0 x) xs)
       + List.length (filter (fun x => Qltb x 0) xs))%nat
      = List.length xs).
Proof.
  induction xs as [| x rest [IH1 IH2]]; [split; reflexivity |].
  cbn [filter List.length].
  destruct (Qltb 0 x) eqn:P; destruct (Qltb x 0) eqn:N; cbn [List.length].
  - apply Qltb_lt in P. apply Qltb_lt in N. lra.
  - split; [lia |]. intro F. inversion F; subst. rewrite <- IH2 by assumption.
    lia.
  - split; [lia |]. intro F. inversion F; subst. rewrite <- IH2 by assumption.
    lia.
  - split; [lia |]. intro F. inversion F as [| ? ? NZ ?]; subst.
    apply Qltb_ge in P. apply Qltb_ge in N. exfalso. apply NZ. lra.
Qed.

(** The fields of the record, in terms of the list of profits and
    losses. *)
Lemma metrics_fields (trades : list Trade) (m : Metrics) :
  calculate_performance_metrics trades = Some m ->
  let returns := map pnl trades in
  let w := List.length (filter (fun x => Qltb 0 x) returns) in
  let l := List.length (filter (fun x => Qltb x 0) returns) in
  (0 < List.length trades)%nat
  /\ total_trades m = List.length trades
  /\ winning_trades m = w
  /\ losing_trades m = l
  /\ win_rate m = Qnat w / Qnat (List.length trades) * 100
  /\ net_profit m = Qsum returns
  /\ total_profit m = gross_profit returns
  /\ total_loss m = gross_loss returns
  /\ max_drawdown m = max_drawdown_of returns
  /\ avg_win m = (if (0 <? w)%nat then gross_profit returns / Qnat w else 0)
  /\ avg_loss m = (if (0 <? l)%nat then gross_loss returns / Qnat l else 0)
  /\ expectancy m
     = win_rate m / 100 * avg_win m - (100 - win_rate m) / 100 * avg_loss m.
Proof.
  unfold calculate_performance_metrics.
  destruct trades as [| t rest]; [discriminate |].
  intro H. injection H as <-.
  cbn [total_trades winning_trades losing_trades win_rate net_profit
       total_profit total_loss max_drawdown avg_win avg_loss expectancy].
  split; [simpl; lia |]. repeat split.
Qed.



Lemma Qnat_le (a b : nat) : (a <= b)%nat -> Qnat a <= Qnat b.
Proof.
  intro H. unfold Qnat. rewrite <- Zle_Qle. lia.
Qed.


(** X14. Counts and rates: winners and losers are counted disjointly
    (their counts add up to at most the number of trades, and to exactly
    that number when no trade broke even), the win rate is a percentage
    of [0, 100], and the average win and the average loss are
    nonnegative. *)
Theorem counts_and_rates (trades : list Trade) (m : Metrics) :
  calculate_performance_metrics trades = Some m ->
  total_trades m = List.length trades
  /\ (1 <= total_trades m)%nat
  /\ (winning_trades m + losing_trades m <= total_trades m)%nat
  /\ (Forall (fun t => ~ pnl t == 0) trades ->
      (winning_trades m + losing_trades m)%nat = total_trades m)
  /\ 0 <= win_rate m <= 100
  /\ 0 <= avg_win m
  /\ 0 <= avg_loss m.
Proof.
  intro H.
  destruct (metrics_fields _ _ H)
    as [Pos [T [W [L [R [_ [_ [_ [_ [AW [AL _]]]]]]]]]]].
  destruct (counts_by_sign (map pnl trades)) as [C1 C2].
  rewrite length_map in C1, C2.
  split; [exact T |]. rewrite T, W, L.
  split; [lia |]. split; [exact C1 |].
  split.
  { intro F. apply C2. apply Forall_map. exact F. }
  pose proof (Qnat_pos _ Pos) as NP.
  split.
  - rewrite R.
    set (w := List.length (filter (fun x => Qltb 0 x) (map pnl trades)))
      in *.
    assert (W0 : 0 <= Qnat w).
    { change 0 with (Qnat 0). apply Qnat_le. lia. }
    assert (W1 : Qnat w <= Qnat (List.length trades))
      by (apply Qnat_le; lia).
    assert (D0 : 0 <= Qnat w / Qnat (List.length trades))
      by (apply Qle_shift_div_l; lra).
    assert (D1 : Qnat w / Qnat (List.length trades) <= 1)
      by (apply Qle_shift_div_r; lra).
    lra.
  - rewrite AW, AL. clear AW AL. split.
    + destruct (0 <? _)%nat eqn:B; [| lra].
      apply Nat.ltb_lt in B. pose proof (Qnat_pos _ B).
      pose proof (winners_sum_nonneg (map pnl trades)) as G.
      fold (gross_profit (map pnl trades)) in G.
      apply Qle_shift_div_l; lra.
    + destruct (0 <? _)%nat eqn:B; [| lra].
      apply Nat.ltb_lt in B. pose proof (Qnat_pos _ B).
      pose proof (gross_loss_nonneg (map pnl trades)) as G.
      apply Qle_shift_div_l; lra.
Qed.

Lemma counts_and_rates_witness :
  exists m,
    calculate_performance_metrics
      (map MetricsSpec.sample_trade MetricsSpec.sample_pnl) = Some m
    /\ 0 <= win_rate m <= 100.
Proof.
  destruct (calculate_performance_metrics
              (map MetricsSpec.sample_trade MetricsSpec.sample_pnl))
    as [m |] eqn:E; [| discriminate E].
  exists m. split; [reflexivity |].
  destruct (counts_and_rates _ m E) as [_ [_ [_ [_ [R _]]]]]. exact R.
Defined.




End MetricsFacts.

(* ================================================================= *)
(** ** Drawdown and the equity curve *)

Section DrawdownFacts.
Import Num Backtest Indicators ExtraSpec.

Lemma py_max_cases (a b : Q) :
  (a < b /\ py_max a b = b) \/ (b <= a /\ py_max a b = a).
Proof.
  unfold py_max. destruct (Qltb a b) eqn:E.
  - left. apply Qltb_lt in E. split; [exact E | reflexivity].
  - right. apply Qltb_ge in E. split; [exact E | reflexivity].
Qed.

Lemma fold_max_ge (l : list Q) : forall a, a <= fold_left py_max l a.
Proof.
  induction l as [| x rest IH]; intro a; cbn [fold_left]; [lra |].
  specialize (IH (py_max a x)).
  destruct (py_max_spec a x) as [A _]. lra.
Qed.

Lemma fold_max_le (b : Q) (l : list Q) :
  forall a, a <= b -> Forall (fun x => x <= b) l ->
            fold_left py_max l a <= b.
Proof.
  induction l as [| x rest IH]; intros a A F; cbn [fold_left]; [exact A |].
  inversion F; subst. apply IH; [| assumption].
  destruct (py_max_cases a x) as [[_ ->] | [_ ->]]; assumption.
Qed.

(** The drawdowns past a point where the running sum is [acc] and the
    running maximum is [m]: each is nonnegative and at most the gap
    [m - acc] plus the losses met since. *)
Lemma drawdowns_bounded (xs : list Q) :
  forall acc m,
    acc <= m ->
    Forall (fun d => 0 <= d
                     /\ d <= (m - acc)
                             - Qsum (filter (fun x => Qltb x 0) xs))
           (zip_sub (running_max_from m (cumsum_from acc xs))
                    (cumsum_from acc xs)).
Proof.
  induction xs as [| x rest IH]; intros acc m A; [constructor |].
  cbn [cumsum_from running_max_from zip_sub].
  pose proof (losers_sum_nonpos rest) as R.
  assert (S : Qsum (filter (fun y => Qltb y 0) (x :: rest))
              <= Qsum (filter (fun y => Qltb y 0) rest)
              /\ Qsum (filter (fun y => Qltb y 0) (x :: rest)) <= x
                 + Qsum (filter (fun y => Qltb y 0) rest)
              /\ Qsum (filter (fun y => Qltb y 0) (x :: rest)) <= 0).
  { cbn [filter]. destruct (Qltb x 0) eqn:N.
    - apply Qltb_lt in N. rewrite Qsum_cons. repeat split; lra.
    - apply Qltb_ge in N. repeat split; lra. }
  destruct S as [S1 [S2 S3]].
  set (sall := Qsum (filter (fun y => Qltb y 0) (x :: rest))) in *.
  set (srest := Qsum (filter (fun y => Qltb y 0) rest)) in *.
  assert (M : acc + x <= py_max m (acc + x)
              /\ py_max m (acc + x) - (acc + x) <= m - acc - sall + srest
              /\ 0 <= py_max m (acc + x) - (acc + x)).
  { destruct (py_max_cases m (acc + x)) as [[L ->] | [L ->]];
      repeat split; lra. }
  destruct M as [M1 [M2 M3]].
  constructor.
  - split; lra.
  - specialize (IH (acc + x) (py_max m (acc + x)) M1).
    eapply Forall_impl; [| exact IH].
    intros d [D1 D2]. fold srest in D2. split; lra.
Qed.

Lemma no_losers (xs : list Q) :
  Forall (fun x => 0 <= x) xs -> filter (fun x => Qltb x 0) xs = [].
Proof.
  induction 1 as [| x rest Hx _ IH]; [reflexivity |].
  cbn [filter]. assert (N : Qltb x 0 = false) by (apply Qltb_ge; exact Hx).
  rewrite N. exact IH.
Qed.

Lemma drawdown_bounds (returns : list Q) :
  0 <= max_drawdown_of returns
  /\ max_drawdown_of returns <= gross_loss returns.
Proof.
  unfold max_drawdown_of, cumsum.
  destruct returns as [| x rest].
  - cbn. pose proof (gross_loss_nonneg []). split; lra.
  - cbn [cumsum_from maximum_accumulate zip_sub List.length Nat.ltb
         Nat.leb np_max].
    pose proof (drawdowns_bounded rest (0 + x) (0 + x) (Qle_refl _)) as F.
    rewrite gross_loss_eq.
    pose proof (losers_sum_nonpos rest) as R.
    assert (S : Qsum (filter (fun y => Qltb y 0) (x :: rest))
                <= Qsum (filter (fun y => Qltb y 0) rest)).
    { cbn [filter]. destruct (Qltb x 0) eqn:N; [| lra].
      apply Qltb_lt in N. rewrite Qsum_cons. lra. }
    split.
    + pose proof (fold_max_ge
                    (zip_sub (running_max_from (0 + x)
                                (cumsum_from (0 + x) rest))
                             (cumsum_from (0 + x) rest))
                    (0 + x - (0 + x))).
      lra.
    + apply fold_max_le.
      * pose proof (losers_sum_nonpos (x :: rest)). lra.
      * eapply Forall_impl; [| exact F]. intros d [_ D]. lra.
Qed.

Lemma drawdown_without_losses (returns : list Q) :
  Forall (fun x => 0 <= x) returns -> max_drawdown_of returns == 0.
Proof.
  intro F. destruct (drawdown_bounds returns) as [B1 B2].
  assert (G : gross_loss returns == 0).
  { rewrite gross_loss_eq, (no_losers returns F). reflexivity. }
  lra.
Qed.









End DrawdownFacts.

(* ================================================================= *)
(** ** More on the Monte Carlo engine *)

Section MonteCarloFacts.
Import Num MonteCarlo EngineSpec ExtraSpec.

(** X18. How the simulation fails, for every configuration.  An empty
    trade list gives the empty result, whatever the trial count.  With
    trades and a trial count of 0, given or taken from the configuration,
    the frame of results has no column and reading it raises [KeyError].
    With trades, at least one trial and a confidence level above 100 or
    below -100, the lower percentile asked for is out of [0, 100] and
    [ValueError] is raised. *)
Theorem simulation_failure_modes (cfg : Config) (rng : Rng)
    (t : Backtest.Trade) (rest : list Backtest.Trade) :
  (forall num_runs,
      run_monte_carlo_simulation cfg rng [] num_runs = Returned None)
  /\ run_monte_carlo_simulation cfg rng (t :: rest) (Some 0%nat)
     = Raised KeyError
  /\ (simulation_runs cfg = 0%nat ->
      run_monte_carlo_simulation cfg rng (t :: rest) None = Raised KeyError)
  /\ (forall n, (1 <= n)%nat ->
      confidence_level cfg < -100 \/ 100 < confidence_level cfg ->
      run_monte_carlo_simulation cfg rng (t :: rest) (Some n)
      = Raised ValueError).
Proof.
  split; [intro num_runs; reflexivity |]. split; [reflexivity |].
  split.
  - intro Z. unfold run_monte_carlo_simulation. rewrite Z. reflexivity.
  - intros n N C. unfold run_monte_carlo_simulation.
    rewrite confidence_intervals_raise; [reflexivity | | exact C].
    intro E.
    pose proof (length_simulation_loop cfg rng
                  (map Backtest.pnl (t :: rest)) n 0 0) as L.
    rewrite E in L. simpl in L. lia.
Qed.

Lemma simulation_failure_modes_witness :
  run_monte_carlo_simulation overconfident sample_rng single_win
    (Some 1%nat) = Raised ValueError
  /\ run_monte_carlo_simulation overconfident sample_rng single_win
       (Some 0%nat) = Raised KeyError
  /\ run_monte_carlo_simulation overconfident sample_rng [] None
     = Returned None.
Proof.
  destruct (simulation_failure_modes overconfident sample_rng
              (MetricsSpec.sample_trade 100) [])
    as [A [B [_ C]]].
  split; [| split; [exact B | exact (A None)]].
  apply (C 1%nat); [lia | right; reflexivity].
Defined.



Lemma choice_members (rng : Rng) (xs : list Q) (size pos : nat) (x : Q) :
  xs <> [] -> In x (choice rng pos xs size) -> In x xs.
Proof.
  intro NE. revert pos. induction size as [| n IH]; intros pos I.
  - destruct I.
  - cbn [choice] in I. destruct I as [<- | I]; [| exact (IH _ I)].
    apply nth_In. apply Nat.mod_upper_bound.
    destruct xs; [contradiction | discriminate].
Qed.






Lemma filter_length_le {A : Type} (f g : A -> bool) (l : list A) :
  (forall x, f x = true -> g x = true) ->
  (List.length (filter f l) <= List.length (filter g l))%nat.
Proof.
  intro H. induction l as [| x rest IH]; [reflexivity |].
  cbn [filter]. destruct (f x) eqn:F.
  - rewrite (H x F). simpl. lia.
  - destruct (g x); simpl; lia.
Qed.

Lemma filter_length_bound {A : Type} (f : A -> bool) (l : list A) :
  (List.length (filter f l) <= List.length l)%nat.
Proof.
  induction l as [| x rest IH]; [reflexivity |].
  cbn [filter]. destruct (f x); simpl; lia.
Qed.

Lemma fge_weaken (x : fnum) (a b : Q) :
  b <= a -> fge x (Fin a) = true -> fge x (Fin b) = true.
Proof.
  intro L. unfold fge. destruct x as [c | | |]; simpl; try discriminate;
    try reflexivity.
  intro H. apply Qle_bool_iff in H. apply Qle_bool_iff. lra.
Qed.

Lemma count_ge_antitone (results_df : list SimulationRun) (a b : Q) :
  b <= a -> (count_ge results_df a <= count_ge results_df b)%nat.
Proof.
  intro L. unfold count_ge. apply filter_length_le.
  intros r. apply fge_weaken. exact L.
Qed.

Lemma count_ge_le_length (results_df : list SimulationRun) (a : Q) :
  (count_ge results_df a <= List.length results_df)%nat.
Proof.
  unfold count_ge. apply filter_length_bound.
Qed.

Lemma percent_monotone (a b n : nat) :
  (0 < n)%nat -> (a <= b)%nat -> (b <= n)%nat ->
  0 <= Backtest.Qnat a / Backtest.Qnat n * 100
  /\ Backtest.Qnat a / Backtest.Qnat n * 100
     <= Backtest.Qnat b / Backtest.Qnat n * 100
  /\ Backtest.Qnat b / Backtest.Qnat n * 100 <= 100.
Proof.
  intros N AB BN. pose proof (Qnat_pos n N) as NP.
  assert (A0 : 0 <= Backtest.Qnat a).
  { change 0 with (Backtest.Qnat 0). apply Qnat_le. lia. }
  pose proof (Qnat_le a b AB) as L1. pose proof (Qnat_le b n BN) as L2.
  assert (D0 : 0 <= Backtest.Qnat a / Backtest.Qnat n)
    by (apply Qle_shift_div_l; lra).
  assert (D1 : Backtest.Qnat a / Backtest.Qnat n
               <= Backtest.Qnat b / Backtest.Qnat n).
  { unfold Qdiv. apply Qmult_le_compat_r; [exact L1 |].
    apply Qinv_le_0_compat. lra. }
  assert (D2 : Backtest.Qnat b / Backtest.Qnat n <= 1)
    by (apply Qle_shift_div_r; lra).
  lra.
Qed.

(** X20. The target probabilities of a nonempty set of trials are
    percentages of [0, 100], ordered like their thresholds: the
    probability of reaching 900 percent is at most that of reaching 200
    percent, which is at most that of reaching 2 percent, which is at
    most the break-even probability. *)
Theorem target_probabilities_are_ordered (results_df : list SimulationRun) :
  results_df <> [] ->
  exists p1 p2 p3 p0,
    probability (day1_target (calculate_target_probabilities results_df))
    = Fin p1
    /\ probability (day2_target (calculate_target_probabilities results_df))
       = Fin p2
    /\ probability
         (day3_min_target (calculate_target_probabilities results_df))
       = Fin p3
    /\ probability (breakeven (calculate_target_probabilities results_df))
       = Fin p0
    /\ 0 <= p1 /\ p1 <= p2 /\ p2 <= p3 /\ p3 <= p0 /\ p0 <= 100.
Proof.
  intro NE.
  assert (N : (0 < List.length results_df)%nat).
  { destruct results_df; [contradiction | simpl; lia]. }
  unfold calculate_target_probabilities.
  cbn [day1_target day2_target day3_min_target breakeven probability].
  rewrite !percent_of_nonempty by exact N.
  do 4 eexists. do 4 (split; [reflexivity |]).
  assert (A1 : (count_ge results_df 900 <= count_ge results_df 200)%nat)
    by (apply count_ge_antitone; discriminate).
  assert (A2 : (count_ge results_df 200 <= count_ge results_df 2)%nat)
    by (apply count_ge_antitone; discriminate).
  assert (A3 : (count_ge results_df 2 <= count_ge results_df 0)%nat)
    by (apply count_ge_antitone; discriminate).
  pose proof (count_ge_le_length results_df 0) as A4.
  destruct (percent_monotone _ _ _ N A1 ltac:(lia)) as [P0 [P1 _]].
  destruct (percent_monotone _ _ _ N A2 ltac:(lia)) as [_ [P2 _]].
  destruct (percent_monotone _ _ _ N A3 A4) as [_ [P3 P4]].
  repeat split; assumption.
Qed.

Lemma target_probabilities_are_ordered_witness :
  sample_runs <> []
  /\ exists p0,
       probability (breakeven (calculate_target_probabilities sample_runs))
       = Fin p0
       /\ p0 <= 100.
Proof.
  assert (H : sample_runs <> []) by discriminate.
  split; [exact H |].
  destruct (target_probabilities_are_ordered sample_runs H)
    as [p1 [p2 [p3 [p0 [_ [_ [_ [E [_ [_ [_ [_ L]]]]]]]]]]]].
  exists p0. split; [exact E | exact L].
Defined.

(** A trial resampled from values that are all nonnegative. *)
Lemma trial_without_losses (cfg : Config) (rng : Rng) (xs : list Q)
    (pos k : nat) :
  xs <> [] -> Forall (fun x => 0 <= x) xs -> 0 < initial_balance cfg ->
  let r := simulate_run cfg rng pos xs k in
  initial_balance cfg <= final_balance r
  /\ max_drawdown r == 0
  /\ fge (total_return r) (Fin 0) = true.
Proof.
  intros NE F P r. unfold r, simulate_run.
  cbn [final_balance max_drawdown total_return].
  set (s := choice rng pos xs (List.length xs)).
  assert (Fs : Forall (fun x => 0 <= x) s).
  { apply Forall_forall. intros x I. rewrite Forall_forall in F.
    apply F. exact (choice_members rng xs _ pos x NE I). }
  pose proof (Qsum_nonneg s Fs) as S.
  split; [lra |]. split.
  - unfold calculate_max_drawdown. apply drawdown_without_losses. exact Fs.
  - unfold fdiv.
    assert (B : Qeq_bool (initial_balance cfg) 0 = false)
      by (apply Qeq_bool_false; lra).
    rewrite B. cbn [fsub fneg fadd fmul]. unfold fge, fle.
    apply Qle_bool_iff.
    assert (D : 1 <= (initial_balance cfg + Qsum s) / initial_balance cfg)
      by (apply Qle_shift_div_l; lra).
    lra.
Qed.

Lemma loop_without_losses (cfg : Config) (rng : Rng) (xs : list Q)
    (todo : nat) :
  xs <> [] -> Forall (fun x => 0 <= x) xs -> 0 < initial_balance cfg ->
  forall pos k,
    Forall (fun r => initial_balance cfg <= final_balance r
                     /\ max_drawdown r == 0
                     /\ fge (total_return r) (Fin 0) = true)
           (simulation_loop cfg rng pos xs k todo).
Proof.
  intros NE Fx P. induction todo as [| n IH]; intros pos k;
    cbn [simulation_loop]; constructor; [| apply IH].
  exact (trial_without_losses cfg rng xs pos k NE Fx P).
Qed.

(** X21. A log without losing trade: with a positive initial balance,
    every trial ends at or above the initial balance with a drawdown of
    zero, the break-even probability is 100 percent and the loss
    probability is 0. *)
Theorem no_loss_no_risk (cfg : Config) (rng : Rng)
    (trades : list Backtest.Trade) (n : nat) (res : SimulationResults) :
  Forall (fun t => 0 <= Backtest.pnl t) trades ->
  0 < initial_balance cfg ->
  run_monte_carlo_simulation cfg rng trades (Some n) = Returned (Some res) ->
  Forall (fun r => initial_balance cfg <= final_balance r
                   /\ max_drawdown r == 0)
         (simulation_data res)
  /\ exists b l,
       probability (breakeven (target_probabilities res)) = Fin b
       /\ probability (loss (target_probabilities res)) = Fin l
       /\ b == 100 /\ l == 0.
Proof.
  intros F P. unfold run_monte_carlo_simulation.
  destruct trades as [| t rest]; [discriminate |].
  set (xs := map Backtest.pnl (t :: rest)) in *.
  set (runs := simulation_loop cfg rng 0 xs 0 n).
  destruct (calculate_confidence_intervals runs _) as [cis | e] eqn:E;
    [| discriminate].
  intro H. injection H as <-.
  cbn [simulation_data target_probabilities].
  assert (NE : xs <> []) by discriminate.
  assert (Fx : Forall (fun x => 0 <= x) xs)
    by (unfold xs; apply Forall_map; exact F).
  assert (A : Forall (fun r => initial_balance cfg <= final_balance r
                               /\ max_drawdown r == 0
                               /\ fge (total_return r) (Fin 0) = true)
                runs).
  { exact (loop_without_losses cfg rng xs n NE Fx P 0%nat 0%nat). }
  assert (NR : runs <> []) by (intro R; rewrite R in E; discriminate E).
  assert (N : (0 < List.length runs)%nat).
  { destruct runs; [contradiction | simpl; lia]. }
  split.
  - eapply Forall_impl; [| exact A]. intros r [A1 [A2 _]]. split; assumption.
  - assert (C : count_ge runs 0 = List.length runs).
    { unfold count_ge. clear - A.
      induction A as [| r rs [_ [_ G]] _ IH]; [reflexivity |].
      cbn [filter]. rewrite G. cbn [List.length]. rewrite IH. reflexivity. }
    assert (NN : Forall (fun r => total_return r <> NaN) runs).
    { eapply Forall_impl; [| exact A]. intros r [_ [_ G]] Z.
      rewrite Z in G. discriminate G. }
    pose proof (counts_partition runs NN) as CP.
    assert (C0 : count_lt runs 0 = 0%nat) by lia.
    unfold calculate_target_probabilities. cbn [breakeven loss probability].
    rewrite !percent_of_nonempty by exact N. rewrite C, C0.
    do 2 eexists. split; [reflexivity |]. split; [reflexivity |].
    pose proof (Qnat_pos _ N). split.
    + field. lra.
    + change (Backtest.Qnat 0) with 0. field. lra.
Qed.

Lemma no_loss_no_risk_witness :
  Forall (fun t => 0 <= Backtest.pnl t) single_win
  /\ 0 < initial_balance default_config
  /\ exists res,
       run_monte_carlo_simulation default_config sample_rng single_win
         (Some 2%nat) = Returned (Some res)
       /\ Forall (fun r => initial_balance default_config <= final_balance r
                           /\ max_drawdown r == 0)
                 (simulation_data res).
Proof.
  assert (H1 : Forall (fun t => 0 <= Backtest.pnl t) single_win).
  { repeat constructor; discriminate. }
  assert (H2 : 0 < initial_balance default_config) by reflexivity.
  split; [exact H1 |]. split; [exact H2 |].
  destruct (run_monte_carlo_simulation default_config sample_rng single_win
              (Some 2%nat)) as [[res |] | e] eqn:E;
    try (vm_compute in E; discriminate E).
  exists res. split; [reflexivity |].
  exact (proj1 (no_loss_no_risk default_config sample_rng single_win 2 res
                  H1 H2 E)).
Defined.

End MonteCarloFacts.
(** * The walk-forward loop *)

Section WalkForwardFacts.
Import Num MonteCarlo EngineSpec WalkSpec.
Local Open Scope Z_scope.

Variable sort_values : list Backtest.Trade -> list Backtest.Trade.
Hypothesis sorted : sorts sort_values.

Lemma filter_length_permutation {A : Type} (f : A -> bool) (l l' : list A) :
  Permutation l l' ->
  List.length (filter f l) = List.length (filter f l').
Proof.
  induction 1 as [| x l l' _ IH | x y l | l l' l'' _ IH1 _ IH2].
  - reflexivity.
  - cbn [filter]. destruct (f x); cbn [List.length]; lia.
  - cbn [filter]. destruct (f x), (f y); reflexivity.
  - lia.
Qed.

(** Sorting the log does not change how many trades pass a filter. *)
Lemma filter_sort_values (f : Backtest.Trade -> bool)
    (ts : list Backtest.Trade) :
  List.length (filter f (sort_values ts)) = List.length (filter f ts).
Proof.
  symmetry. apply filter_length_permutation. exact (proj1 (sorted ts)).
Qed.

Lemma ForallOrdPairs_app {A : Type} (R : A -> A -> Prop) (l1 l2 : list A) :
  ForallOrdPairs R l1 -> ForallOrdPairs R l2 ->
  (forall x y, In x l1 -> In y l2 -> R x y) ->
  ForallOrdPairs R (l1 ++ l2).
Proof.
  intros H1 H2 H. induction H1 as [| a l F _ IH]; [exact H2 |].
  cbn [app]. constructor.
  - apply Forall_app. split; [exact F |].
    apply Forall_forall. intros y I. apply H; [left; reflexivity | exact I].
  - apply IH. intros x y Ix Iy. apply H; [right; exact Ix | exact Iy].
Qed.

(** What holds of a reported period. *)
Lemma period_entry_facts (cfg : Config) (df : list Backtest.Trade)
    (p : Z) (c : Time.Timestamp) (k : nat) (r : PeriodResult) :
  In r (period_entry cfg df p c k) ->
  period r = k
  /\ start_date r = c
  /\ end_date r = Time.add_months c p
  /\ num_trades r = List.length (filter (in_period c (Time.add_months c p)) df)
  /\ (1 <= num_trades r)%nat
  /\ calculate_period_metrics cfg
       (filter (in_period c (Time.add_months c p)) df) = Some (metrics r)
  /\ pm_total_trades (metrics r) = num_trades r.
Proof.
  unfold period_entry.
  destruct (filter (in_period c (Time.add_months c p)) df) as [| t rest];
    [intros [] |].
  cbn [List.length Nat.ltb Nat.leb calculate_period_metrics].
  intros [<- | []].
  cbn [period start_date end_date num_trades metrics pm_total_trades].
  repeat split. lia.
Qed.

Lemma loop_reports (cfg : Config) (df : list Backtest.Trade)
    (e : Time.Timestamp) (p s : Z) (fuel : nat) :
  forall c k rs,
    walk_forward_loop fuel cfg df e p s c k = Some rs ->
    Forall (fun r =>
              (k <= period r)%nat
              /\ (start_date r = window_start c s (period r - k)
                  /\ Time.month_index (start_date r)
                     = Time.month_index c + Z.of_nat (period r - k) * s)
              /\ reported cfg df e p r)
           rs
    /\ ForallOrdPairs lt (map period rs).
Proof.
  induction fuel as [| n IH]; intros c k rs; cbn [walk_forward_loop];
    [discriminate |].
  destruct (Time.leb (Time.add_months c p) e) eqn:L.
  - destruct (walk_forward_loop n cfg df e p s (Time.add_months c s) (S k))
      as [rest |] eqn:R; [| discriminate].
    intro H. injection H as <-.
    destruct (IH _ _ _ R) as [F O].
    split.
    + apply Forall_app. split.
      * apply Forall_forall. intros r I.
        destruct (period_entry_facts cfg df p c k r I)
          as [E1 [E2 [E3 [E4 [E5 [E6 E7]]]]]].
        unfold reported. rewrite E1, E3, E2.
        replace (k - k)%nat with 0%nat by lia.
        rewrite <- E4.
        repeat split; try assumption; try lia.
      * eapply Forall_impl; [| exact F].
        intros r [A1 [[A0 A2] A3]]. split; [lia |]. split; [| exact A3].
        split.
        -- rewrite A0.
           replace (period r - k)%nat with (S (period r - S k)) by lia.
           reflexivity.
        -- rewrite A2, month_index_add_months.
           replace (Z.of_nat (period r - k))
             with (Z.of_nat (period r - S k) + 1) by lia.
           ring.
    + rewrite map_app. apply ForallOrdPairs_app; [| exact O |].
      * unfold period_entry.
        destruct (0 <? _)%nat; [| constructor].
        destruct (calculate_period_metrics _ _); repeat constructor.
      * intros x y Ix Iy.
        apply in_map_iff in Ix. destruct Ix as [r1 [<- I1]].
        apply in_map_iff in Iy. destruct Iy as [r2 [<- I2]].
        rewrite (proj1 (period_entry_facts cfg df p c k r1 I1)).
        rewrite Forall_forall in F. destruct (F r2 I2) as [A _]. lia.
  - intro H. injection H as <-. split; constructor.
Qed.

(** X22. The periods reported by a walk-forward analysis that returns,
    for every sorting function.  Each one is a whole window of
    [period_months] months that ends no later than the latest exit of the
    log and starts on the earliest exit moved [period] times by
    [step_months] months; it holds at least one trade, counts exactly
    the trades of the log that exit inside the window, and carries the
    metrics of these trades taken in ascending order of exit time.  The
    period numbers increase strictly along the list, and the summary is
    absent exactly when no period is reported. *)
Theorem walk_forward_periods (fuel : nat) (cfg : Config)
    (trades : list Backtest.Trade) (period_months step_months : Z)
    (wf : WalkForward) :
  run_walk_forward_analysis sort_values fuel cfg trades period_months
                            step_months
  = Some (Some wf) ->
  exists first last,
    In first trades /\ In last trades
    /\ Forall (fun t =>
                 Time.leb (Backtest.exit_time first) (Backtest.exit_time t)
                 = true
                 /\ Time.leb (Backtest.exit_time t) (Backtest.exit_time last)
                    = true)
              trades
    /\ Forall (fun r =>
                 reported cfg (sort_values trades) (Backtest.exit_time last)
                          period_months r
                 /\ ascending
                      (filter (in_period (start_date r) (end_date r))
                              (sort_values trades))
                 /\ num_trades r
                    = List.length
                        (filter (in_period (start_date r) (end_date r))
                                trades)
                 /\ start_date r
                    = window_start (Backtest.exit_time first) step_months
                                   (period r)
                 /\ Time.month_index (start_date r)
                    = Time.month_index (Backtest.exit_time first)
                      + Z.of_nat (period r) * step_months)
              (period_results wf)
    /\ ForallOrdPairs lt (map period (period_results wf))
    /\ (total_periods wf = None <-> period_results wf = []).
Proof.
  unfold run_walk_forward_analysis.
  destruct trades as [| t0 rest]; [discriminate |].
  destruct (range_of_sorted sort_values sorted t0 rest) as [-> ->].
  destruct (walk_forward_loop fuel cfg (sort_values (t0 :: rest))
              (log_end t0 rest) period_months step_months
              (log_start t0 rest) 0) as [rs |] eqn:L; [| discriminate].
  intro H. injection H as <-. cbn [period_results total_periods].
  destruct (log_start_is_an_exit t0 rest) as [first [I1 E1]].
  destruct (log_end_is_an_exit t0 rest) as [last [I2 E2]].
  destruct (loop_reports _ _ _ _ _ _ _ _ _ L) as [F O].
  exists first, last. split; [exact I1 |]. split; [exact I2 |].
  split; [| split; [| split; [exact O |]]].
  - apply Forall_forall. intros t I. rewrite E1, E2.
    exact (log_range t0 rest t I).
  - eapply Forall_impl; [| exact F].
    intros r [_ [[A0 A] R]]. rewrite E1, E2. split; [exact R |].
    split; [apply filter_ascending; exact (proj2 (sorted (t0 :: rest))) |].
    split; [| split].
    + destruct R as [_ [_ [N _]]]. rewrite N. apply filter_sort_values.
    + rewrite A0. replace (period r - 0)%nat with (period r) by lia.
      reflexivity.
    + rewrite A. replace (period r - 0)%nat with (period r) by lia.
      reflexivity.
  - destruct rs; split; intro; congruence.
Qed.

Lemma loop_returns (cfg : Config) (df : list Backtest.Trade)
    (e : Time.Timestamp) (p s : Z) :
  1 <= s -> 1 <= Time.month e <= 12 ->
  forall n c k,
    Time.month_index e - Time.month_index c - p < Z.of_nat n ->
    exists rs, walk_forward_loop (S n) cfg df e p s c k = Some rs.
Proof.
  intros S1 M. induction n as [| n IH]; intros c k B.
  - cbn [walk_forward_loop].
    assert (G : Time.compare (Time.add_months c p) e = Gt).
    { apply compare_gt_index; [apply month_add_months | exact M |].
      rewrite month_index_add_months. lia. }
    unfold Time.leb. rewrite G. eexists. reflexivity.
  - cbn [walk_forward_loop].
    destruct (Time.leb (Time.add_months c p) e); [| eexists; reflexivity].
    destruct (IH (Time.add_months c s) (S k)) as [rs R].
    { rewrite month_index_add_months. lia. }
    cbn [walk_forward_loop] in R. rewrite R. eexists. reflexivity.
Qed.

Lemma loop_fuel_monotone (cfg : Config) (df : list Backtest.Trade)
    (e : Time.Timestamp) (p s : Z) (n : nat) :
  forall c k rs,
    walk_forward_loop n cfg df e p s c k = Some rs ->
    forall m, walk_forward_loop (n + m) cfg df e p s c k = Some rs.
Proof.
  induction n as [| n IH]; intros c k rs; cbn [walk_forward_loop];
    [discriminate |].
  intros H m. cbn [Nat.add walk_forward_loop].
  destruct (Time.leb (Time.add_months c p) e); [| exact H].
  destruct (walk_forward_loop n cfg df e p s (Time.add_months c s) (S k))
    as [rest |] eqn:R; [| discriminate].
  rewrite (IH _ _ _ R m). exact H.
Qed.

Lemma analysis_fuel_monotone (cfg : Config) (trades : list Backtest.Trade)
    (p s : Z) (n : nat) (res : option WalkForward) :
  run_walk_forward_analysis sort_values n cfg trades p s = Some res ->
  forall m,
    run_walk_forward_analysis sort_values (n + m) cfg trades p s = Some res.
Proof.
  unfold run_walk_forward_analysis.
  destruct trades as [| t0 rest]; [intros H m; exact H |].
  destruct (walk_forward_loop n _ _ _ _ _ _ _) as [rs |] eqn:L;
    [| discriminate].
  intros H m. rewrite (loop_fuel_monotone _ _ _ _ _ _ _ _ _ L m). exact H.
Qed.

(** X23. With a step of one month or more the walk-forward analysis
    returns, for every sorting function, every log whose exit times are
    calendar dates and every window length: from some number of loop
    iterations on the model gives one and the same result, and no
    smaller number gives another. *)
Theorem walk_forward_returns (cfg : Config) (trades : list Backtest.Trade)
    (period_months step_months : Z) :
  Forall (fun t => Time.valid (Backtest.exit_time t)) trades ->
  1 <= step_months ->
  exists fuel res,
    (forall extra,
        run_walk_forward_analysis sort_values (fuel + extra) cfg trades
                                  period_months step_months = Some res)
    /\ (forall fuel' res',
           run_walk_forward_analysis sort_values fuel' cfg trades
                                     period_months step_months = Some res' ->
           res' = res).
Proof.
  intros V S1.
  assert (R : exists fuel res,
             run_walk_forward_analysis sort_values fuel cfg trades
                                       period_months step_months = Some res).
  { destruct trades as [| t0 rest]; [exists 0%nat; eexists; reflexivity |].
    destruct (log_end_is_an_exit t0 rest) as [last [I E]].
    rewrite Forall_forall in V. pose proof (V last I) as [M _].
    rewrite E in M.
    destruct (loop_returns cfg (sort_values (t0 :: rest)) (log_end t0 rest)
                period_months step_months S1 M
                (Z.to_nat (Time.month_index (log_end t0 rest)
                           - Time.month_index (log_start t0 rest)
                           - period_months + 1))
                (log_start t0 rest) 0%nat) as [rs L]; [lia |].
    eexists. unfold run_walk_forward_analysis.
    destruct (range_of_sorted sort_values sorted t0 rest) as [-> ->].
    rewrite L. eexists. reflexivity. }
  destruct R as [fuel [res R]]. exists fuel, res. split.
  - intro extra. exact (analysis_fuel_monotone _ _ _ _ _ _ R extra).
  - intros fuel' res' R'.
    pose proof (analysis_fuel_monotone _ _ _ _ _ _ R fuel') as A.
    pose proof (analysis_fuel_monotone _ _ _ _ _ _ R' fuel) as B.
    rewrite (Nat.add_comm fuel' fuel) in B. congruence.
Qed.

Lemma add_zero_months (t : Time.Timestamp) :
  Time.valid t -> Time.add_months t 0 = t.
Proof.
  destruct t as [y m d ns]. unfold Time.valid, Time.add_months,
    Time.month_index. cbn [Time.year Time.month Time.day Time.nanos].
  intros [M [D _]].
  pose proof (Z_div_mod_eq_full (y * 12 + (m - 1) + 0) 12) as E.
  pose proof (Z.mod_pos_bound (y * 12 + (m - 1) + 0) 12 ltac:(lia)) as B.
  assert (Y : (y * 12 + (m - 1) + 0) / 12 = y) by lia.
  assert (Mo : (y * 12 + (m - 1) + 0) mod 12 + 1 = m) by lia.
  rewrite Y, Mo. f_equal. lia.
Qed.

Lemma loop_with_zero_step (cfg : Config) (df : list Backtest.Trade)
    (e : Time.Timestamp) (p : Z) (c : Time.Timestamp) :
  Time.valid c -> Time.leb (Time.add_months c p) e = true ->
  forall fuel k, walk_forward_loop fuel cfg df e p 0 c k = None.
Proof.
  intros V L. induction fuel as [| n IH]; intro k; cbn [walk_forward_loop];
    [reflexivity |].
  rewrite L, (add_zero_months c V), IH. reflexivity.
Qed.

(** X24. The log against the window, for every sorting function: when
    the first window, which starts on the first exit, ends after the last
    exit, the analysis returns at once with no period and no summary,
    whatever the step; when it fits and the step is zero months, the loop
    never ends. *)
Theorem window_against_range (cfg : Config) (t0 : Backtest.Trade)
    (rest : list Backtest.Trade) (period_months : Z) :
  Forall (fun t => Time.valid (Backtest.exit_time t)) (t0 :: rest) ->
  (Time.leb (Time.add_months (log_start t0 rest) period_months)
            (log_end t0 rest) = false ->
   forall fuel step_months,
     run_walk_forward_analysis sort_values (S fuel) cfg (t0 :: rest)
                               period_months step_months
     = Some (Some (mkWalkForward [] None)))
  /\ (Time.leb (Time.add_months (log_start t0 rest) period_months)
               (log_end t0 rest) = true ->
      forall fuel,
        run_walk_forward_analysis sort_values fuel cfg (t0 :: rest)
                                  period_months 0
        = None).
Proof.
  intro V. split; intros L fuel.
  - intro step_months. unfold run_walk_forward_analysis.
    destruct (range_of_sorted sort_values sorted t0 rest) as [-> ->].
    cbn [walk_forward_loop]. rewrite L. reflexivity.
  - unfold run_walk_forward_analysis.
    destruct (range_of_sorted sort_values sorted t0 rest) as [-> ->].
    destruct (log_start_is_an_exit t0 rest) as [first [I E]].
    rewrite Forall_forall in V. pose proof (V first I) as Vf.
    rewrite E in Vf.
    rewrite (loop_with_zero_step cfg _ _ _ _ Vf L fuel 0%nat). reflexivity.
Qed.

(** X25. The period metrics of the walk-forward engine agree with the
    metrics calculator of the backtester on the same trades: both give
    the empty result for no trade, and otherwise the same trade counts,
    win rate, net profit, profit factor and maximum drawdown. *)
Theorem period_metrics_match_backtest (cfg : Config)
    (period_trades : list Backtest.Trade) :
  match calculate_period_metrics cfg period_trades,
        Backtest.calculate_performance_metrics period_trades with
  | Some pm, Some m =>
      pm_total_trades pm = Backtest.total_trades m
      /\ pm_winning_trades pm = Backtest.winning_trades m
      /\ pm_losing_trades pm = Backtest.losing_trades m
      /\ pm_win_rate pm = Backtest.win_rate m
      /\ pm_net_profit pm = Backtest.net_profit m
      /\ pm_profit_factor pm = Backtest.profit_factor m
      /\ pm_max_drawdown pm = Backtest.max_drawdown m
  | None, None => period_trades = []
  | _, _ => False
  end.
Proof.
  destruct period_trades as [| t rest]; [reflexivity |].
  cbn [calculate_period_metrics Backtest.calculate_performance_metrics].
  repeat split.
Qed.

End WalkForwardFacts.

Section WalkForwardFactsInstances.
Import Num MonteCarlo EngineSpec WalkSpec.
Local Open Scope Z_scope.

Lemma walk_forward_periods_witness :
  sorts insertion_sort
  /\ exists wf,
       run_walk_forward_analysis insertion_sort 3 default_config dense_log
                                 12 1
       = Some (Some wf)
       /\ ForallOrdPairs lt (map period (period_results wf)).
Proof.
  split; [exact insertion_sort_sorts |].
  destruct (run_walk_forward_analysis insertion_sort 3 default_config
              dense_log 12 1)
    as [[wf |] |] eqn:E; try (vm_compute in E; discriminate E).
  exists wf. split; [reflexivity |].
  destruct (walk_forward_periods insertion_sort insertion_sort_sorts
              3 default_config dense_log 12 1 wf E)
    as [first [last [_ [_ [_ [_ [O _]]]]]]].
  exact O.
Defined.

Lemma walk_forward_returns_witness :
  sorts insertion_sort
  /\ Forall (fun t => Time.valid (Backtest.exit_time t)) dense_log
  /\ 1 <= 1
  /\ exists fuel res,
       run_walk_forward_analysis insertion_sort fuel default_config
                                 dense_log 12 1
       = Some res.
Proof.
  assert (V : Forall (fun t => Time.valid (Backtest.exit_time t)) dense_log).
  { repeat constructor; cbn; lia. }
  assert (S1 : 1 <= 1) by lia.
  split; [exact insertion_sort_sorts |].
  split; [exact V |]. split; [exact S1 |].
  destruct (walk_forward_returns insertion_sort insertion_sort_sorts
              default_config dense_log 12 1 V S1)
    as [fuel [res [R _]]].
  exists (fuel + 0)%nat, res. exact (R 0%nat).
Defined.

Lemma window_against_range_witness :
  sorts insertion_sort
  /\ Forall (fun t => Time.valid (Backtest.exit_time t)) dense_log
  /\ run_walk_forward_analysis insertion_sort 50 default_config dense_log
                               12 0 = None
  /\ run_walk_forward_analysis insertion_sort 1 default_config dense_log
                               24 1
     = Some (Some (mkWalkForward [] None)).
Proof.
  assert (V : Forall (fun t => Time.valid (Backtest.exit_time t)) dense_log).
  { repeat constructor; cbn; lia. }
  split; [exact insertion_sort_sorts |]. split; [exact V |].
  destruct (window_against_range insertion_sort insertion_sort_sorts
              default_config
              (closed_at (Time.mkTs 2023 1 1 0) 50)
              [closed_at (Time.mkTs 2023 6 15 0) 30;
               closed_at (Time.mkTs 2024 2 1 0) (-20)] 12 V) as [_ Z0].
  destruct (window_against_range insertion_sort insertion_sort_sorts
              default_config
              (closed_at (Time.mkTs 2023 1 1 0) 50)
              [closed_at (Time.mkTs 2023 6 15 0) 30;
               closed_at (Time.mkTs 2024 2 1 0) (-20)] 24 V) as [N0 _].
  split.
  - apply Z0. vm_compute. reflexivity.
  - apply (N0 ltac:(vm_compute; reflexivity) 0%nat 1).
Defined.

End WalkForwardFactsInstances.
(** * Percentiles and confidence intervals *)

Section IntervalFacts.
Import Num MonteCarlo EngineSpec ExtraSpec IntervalSpec.























End IntervalFacts.
